(** * TransactIQ: EVM-to-Injective compatibility layer

    A shallow embedding of [src/index.js]: the selector database, the
    calldata decoder, the message builders, the translation engine and the
    three POST routes, followed by the properties of the specification that
    were checked against them.

    Conventions of the embedding.
    - A JavaScript string is a Rocq [string]; all strings the program
      compares or slices are ASCII (hex digits, identifiers, addresses), for
      which bytes, UTF-8 and UTF-16 code units coincide.
    - [undefined] / an absent JSON field is [None].
    - A JavaScript number is the rational it denotes. What the program only
      stores or compares (confidence, counters) is kept as it is; a quotient
      or a product the program computes is rounded to binary64 as the
      machine rounds it ([Double]).
    - A thrown exception is the [Throw] outcome of [Completion].
    - [Date.now()] is an explicit argument [now] (milliseconds since the
      epoch) of every function that reads the clock. *)

From Stdlib Require Import ZArith NArith QArith Qround Qpower List String Ascii Lia Lqa.
From stdpp Require Import base option list strings gmap fin_maps pretty.

Local Open Scope string_scope.

(** ** ethers.id: Keccak-256 of the UTF-8 bytes, as a hex string *)

Module Keccak.

Local Open Scope N_scope.

(** A lane is a 64-bit word, kept in [N] with the wrap-around written out. *)
Definition w64 : N := 2 ^ 64.

Definition rotl (a : N) (n : N) : N :=
  N.lor (N.shiftl a n mod w64) (N.shiftr a (64 - n)).

Definition not64 (a : N) : N := N.lxor a (w64 - 1).

(** The state is 25 lanes, lane (x, y) at index x + 5 y. *)
Definition lane (s : list N) (x y : nat) : N := nth (x mod 5 + 5 * (y mod 5))%nat s 0.

Definition rotation_offsets : list N :=
  [ 0; 1; 62; 28; 27;
    36; 44; 6; 55; 20;
    3; 10; 43; 25; 39;
    41; 45; 15; 21; 8;
    18; 2; 61; 56; 14 ].

Definition round_constants : list N :=
  [ 0x0000000000000001; 0x0000000000008082; 0x800000000000808A;
    0x8000000080008000; 0x000000000000808B; 0x0000000080000001;
    0x8000000080008081; 0x8000000000008009; 0x000000000000008A;
    0x0000000000000088; 0x0000000080008009; 0x000000008000000A;
    0x000000008000808B; 0x800000000000008B; 0x8000000000008089;
    0x8000000000008003; 0x8000000000008002; 0x8000000000000080;
    0x000000000000800A; 0x800000008000000A; 0x8000000080008081;
    0x8000000000008080; 0x0000000080000001; 0x8000000080008008 ].

Definition coords : list (nat * nat) :=
  flat_map (fun y => map (fun x => (x, y)) (seq 0 5)) (seq 0 5).

Definition theta (s : list N) : list N :=
  let c := map (fun x => fold_left N.lxor (map (lane s x) (seq 0 5)) 0) (seq 0 5) in
  let d := map (fun x => N.lxor (nth ((x + 4) mod 5)%nat c 0)
                                (rotl (nth ((x + 1) mod 5)%nat c 0) 1)) (seq 0 5) in
  map (fun '(x, y) => N.lxor (lane s x y) (nth x d 0)) coords.

(** rho and pi together: B[y][2x+3y] = rotl(A[x][y], r[x][y]); read
    backwards, B[X][Y] comes from x = (X + 3Y) mod 5, y = X. *)
Definition rho_pi (s : list N) : list N :=
  map (fun '(X, Y) =>
         let x := ((X + 3 * Y) mod 5)%nat in
         let y := X in
         rotl (lane s x y) (nth (x + 5 * y)%nat rotation_offsets 0)) coords.

Definition chi (s : list N) : list N :=
  map (fun '(x, y) =>
         N.lxor (lane s x y)
                (N.land (not64 (lane s (x + 1) y)) (lane s (x + 2) y))) coords.

Definition iota (rc : N) (s : list N) : list N :=
  match s with
  | [] => []
  | a :: rest => N.lxor a rc :: rest
  end.

Definition round (s : list N) (rc : N) : list N := iota rc (chi (rho_pi (theta s))).

Definition keccak_f (s : list N) : list N := fold_left round round_constants s.

(** Rate in bytes for a 256-bit digest, and the padding: the domain byte
    ([0x01] for the original Keccak, [0x06] for SHA-3), zeros, and a final
    [0x80], merged into one byte when a single byte is missing. *)
Definition rate : nat := 136.

Definition pad (domain : N) (msg : list N) : list N :=
  let q := (rate - length msg mod rate)%nat in
  if (q =? 1)%nat then msg ++ [domain + 0x80]
  else msg ++ [domain] ++ repeat 0 (q - 2) ++ [0x80].

Definition le_word (bytes : list N) : N :=
  fold_right (fun b acc => b + 256 * acc) 0 bytes.

Fixpoint lanes_of (n : nat) (bytes : list N) : list N :=
  match n with
  | O => []
  | S n' => le_word (firstn 8 bytes) :: lanes_of n' (skipn 8 bytes)
  end.

Definition xor_block (s : list N) (block : list N) : list N :=
  map (fun '(a, b) => N.lxor a b) (combine s (lanes_of 25 block)).

Fixpoint absorb (blocks : nat) (s : list N) (bytes : list N) : list N :=
  match blocks with
  | O => s
  | S k => absorb k (keccak_f (xor_block s (firstn rate bytes))) (skipn rate bytes)
  end.

Fixpoint bytes_of_lane (n : nat) (a : N) : list N :=
  match n with
  | O => []
  | S n' => (a mod 256) :: bytes_of_lane n' (a / 256)
  end.

(** The 32-byte digest of the sponge with the given domain byte. *)
Definition sponge256 (domain : N) (msg : list N) : list N :=
  let p := pad domain msg in
  let s := absorb (length p / rate) (repeat 0 25) p in
  firstn 32 (flat_map (bytes_of_lane 8) s).

(** Keccak-256 as Ethereum uses it, and SHA3-256, which differs in the
    domain byte only. *)
Definition keccak256 : list N -> list N := sponge256 0x01.
Definition sha3_256 : list N -> list N := sponge256 0x06.

Definition hex_digit (d : N) : ascii :=
  if d <? 10 then ascii_of_N (48 + d) else ascii_of_N (87 + d).

Definition hex_of_bytes (bs : list N) : string :=
  fold_right (fun b acc => String (hex_digit (b / 16)) (String (hex_digit (b mod 16)) acc))
             EmptyString bs.

Definition utf8_bytes (s : string) : list N := map N_of_ascii (list_ascii_of_string s).

End Keccak.

(** [ethers.id(text)]: the Keccak-256 digest of the text's UTF-8 bytes as a
    0x-prefixed lowercase hex string of 66 characters. *)
Definition ethers_id (text : string) : string :=
  "0x" ++ Keccak.hex_of_bytes (Keccak.keccak256 (Keccak.utf8_bytes text)).

(** ** JavaScript string and value helpers used by the program *)

Module JS.

(** The outcome of a call that may throw. *)
Inductive Completion (A : Type) : Type :=
| Return (a : A)
| Throw (message : string).
Arguments Return {A} a.
Arguments Throw {A} message.

(** Truthiness of a possibly-undefined string: [undefined] and the empty
    string are falsy. *)
Definition truthy (v : option string) : bool :=
  match v with
  | Some s => negb (String.eqb s "")
  | None => false
  end.

(** [a || b] on possibly-undefined strings. *)
Definition or_else (a b : option string) : option string :=
  if truthy a then a else b.

(** [a || 'literal']. *)
Definition or_lit (a : option string) (lit : string) : string :=
  match or_else a (Some lit) with
  | Some s => s
  | None => lit
  end.

(** A destructured parameter with a default: [({ denom = 'inj' })]. Only
    [undefined] takes the default. *)
Definition param_default (a : option string) (lit : string) : string :=
  match a with
  | Some s => s
  | None => lit
  end.

(** A value interpolated in a template literal. *)
Definition interpolate (v : option string) : string := param_default v "undefined".

(** [toLowerCase] on ASCII text: the letters A to Z are mapped, every other
    character below 128 is kept. Beyond ASCII the JavaScript mapping follows
    Unicode and can change the length of the string; statements that depend
    on it are stated for ASCII text. *)
Definition lower_char (c : ascii) : ascii :=
  let n := nat_of_ascii c in
  if (65 <=? n)%nat && (n <=? 90)%nat then ascii_of_nat (n + 32) else c.

Fixpoint toLowerCase (s : string) : string :=
  match s with
  | EmptyString => EmptyString
  | String c rest => String (lower_char c) (toLowerCase rest)
  end.

Definition startsWith (s prefix : string) : bool := String.prefix prefix s.

Definition includes (s sub : string) : bool :=
  match String.index 0 sub s with
  | Some _ => true
  | None => false
  end.

(** [s.slice(from, to)] and [s.slice(from)] for indices within 0 .. length. *)
Definition slice (s : string) (from to : nat) : string := String.substring from (to - from) s.
Definition slice_from (s : string) (from : nat) : string :=
  String.substring from (String.length s - from) s.

Fixpoint repeat (s : string) (n : nat) : string :=
  match n with
  | O => EmptyString
  | S n' => s ++ repeat s n'
  end.

(** [s.padStart(n, c)] for a one-character filler. *)
Definition padStart (s : string) (n : nat) (c : string) : string :=
  repeat c (n - String.length s) ++ s.

(** [s.replace(pat, by)] with a string pattern: the first occurrence only. *)
Definition replace (s pat by_ : string) : string :=
  match String.index 0 pat s with
  | Some i => String.substring 0 i s ++ by_ ++ slice_from s (i + String.length pat)
  | None => s
  end.

(** [xs.join(',')]: [undefined] elements are rendered as the empty string. *)
Fixpoint join (xs : list (option string)) : string :=
  match xs with
  | [] => ""
  | [x] => param_default x ""
  | x :: rest => param_default x "" ++ "," ++ join rest
  end.

(** [Math.round]: the nearest integer, halves rounded up. *)
Definition Math_round (q : Q) : Z := Qfloor (q + (1 # 2)).

(** *** [new Date(ms).toISOString()] *)

Local Open Scope Z_scope.

Definition ms_per_day : Z := 86400000.

(** Year, month and day of a day count since 1970-01-01, in the proleptic
    Gregorian calendar. *)
Definition civil_from_days (days : Z) : Z * Z * Z :=
  let z := days + 719468 in
  let era := z / 146097 in
  let doe := z - era * 146097 in
  let yoe := (doe - doe / 1460 + doe / 36524 - doe / 146096) / 365 in
  let doy := doe - (365 * yoe + yoe / 4 - yoe / 100) in
  let mp := (5 * doy + 2) / 153 in
  let d := doy - (153 * mp + 2) / 5 + 1 in
  let m := if mp <? 10 then mp + 3 else mp - 9 in
  let y := yoe + era * 400 + (if m <=? 2 then 1 else 0) in
  (y, m, d).

Definition digits (n : Z) (width : nat) : string :=
  padStart (pretty (Z.to_N n)) width "0".

Definition iso_year (y : Z) : string :=
  if (0 <=? y) && (y <=? 9999) then digits y 4
  else if y <? 0 then "-" ++ digits (- y) 6
  else "+" ++ digits y 6.

Definition toISOString (ms : Z) : string :=
  let days := ms / ms_per_day in
  let t := ms mod ms_per_day in
  let '(y, m, d) := civil_from_days days in
  iso_year y ++ "-" ++ digits m 2 ++ "-" ++ digits d 2 ++ "T"
    ++ digits (t / 3600000) 2 ++ ":" ++ digits (t / 60000 mod 60) 2 ++ ":"
    ++ digits (t / 1000 mod 60) 2 ++ "." ++ digits (t mod 1000) 3 ++ "Z".

End JS.

(** ** JavaScript number arithmetic

    A JavaScript number is an IEEE 754 binary64 value. It is modelled by the
    rational it denotes, and the result of an arithmetic operation is the
    exact result rounded to the nearest value with a 53-bit significand,
    ties to the even significand. The exponent range is not modelled: the
    values the program computes (sums of array lengths, their quotients and
    the hundredfold of those) are far from the overflow and underflow
    thresholds. Integers below 2^53 and their halves are binary64 values, so
    sums of counters need no rounding. *)

Module Double.

Local Open Scope Q_scope.

Definition pow2 (e : Z) : Q := Qpower 2 e.

(** The binade of a positive rational: the [k] with [2^k <= q < 2^(k+1)]. *)
Definition exponent (q : Q) : Z :=
  let k := (Z.log2 (Qnum q) - Z.log2 (Zpos (Qden q)))%Z in
  if Qle_bool (pow2 k) q then k else (k - 1)%Z.

(** The nearest integer, ties to the even one. *)
Definition nearest_even (q : Q) : Z :=
  let n := Qfloor q in
  match Qcompare (q - inject_Z n) (1 # 2) with
  | Lt => n
  | Gt => (n + 1)%Z
  | Eq => if Z.even n then n else (n + 1)%Z
  end.

(** A positive rational in the binade [k] is scaled by [2^(52 - k)], so that
    it lies between [2^52] and [2^53], rounded to an integer and scaled
    back. *)
Definition nearest_positive (q : Q) : Q :=
  let e := (exponent q - 52)%Z in
  Qred (inject_Z (nearest_even (q * pow2 (- e))) * pow2 e).

Definition nearest (q : Q) : Q :=
  let r := Qred q in
  match Qnum r with
  | Z0 => 0
  | Zpos _ => nearest_positive r
  | Zneg _ => - nearest_positive (- r)
  end.

(** The unit roundoff: rounding moves a value by at most this fraction of
    it. *)
Definition epsilon : Q := pow2 (-53).

(** [x / y] and [x * y] on numbers. *)
Definition div (x y : Q) : Q := nearest (x / y).
Definition mul (x y : Q) : Q := nearest (x * y).

End Double.

(** ** The selector database *)

Inductive MatchType : Type := DIRECT | SEMANTIC | COMPOSITE | UNSUPPORTED.

Global Instance MatchType_eq_dec : EqDecision MatchType.
Proof. solve_decision. Defined.

Definition matchType_string (m : MatchType) : string :=
  match m with
  | DIRECT => "DIRECT"
  | SEMANTIC => "SEMANTIC"
  | COMPOSITE => "COMPOSITE"
  | UNSUPPORTED => "UNSUPPORTED"
  end.

(** [injectiveMapping]: [msgType] is [None] where the source has [null];
    [steps] and [notes] are [None] where the source has no such field. *)
Record InjectiveMapping : Type := {
  msgType : option string;
  steps : option (list string);
  confidence : Q;
  matchType : MatchType;
  notes : option string
}.

Record FuncInfo : Type := {
  name : string;
  signature : string;
  paramTypes : list string;
  paramNames : list string;
  category : string;
  injectiveMapping : InjectiveMapping
}.

(** The entries of [SELECTOR_DB], one definition per selector. *)

Definition transfer_info : FuncInfo :=
  {| name := "transfer";
     signature := "transfer(address,uint256)";
     paramTypes := ["address"; "uint256"];
     paramNames := ["to"; "amount"];
     category := "token";
     injectiveMapping :=
       {| msgType := Some "/cosmos.bank.v1beta1.MsgSend";
          steps := None;
          confidence := 0.98%Q;
          matchType := DIRECT;
          notes := None |} |}.

Definition approve_info : FuncInfo :=
  {| name := "approve";
     signature := "approve(address,uint256)";
     paramTypes := ["address"; "uint256"];
     paramNames := ["spender"; "amount"];
     category := "token";
     injectiveMapping :=
       {| msgType := Some "/cosmos.authz.v1beta1.MsgGrant";
          steps := None;
          confidence := 0.85%Q;
          matchType := SEMANTIC;
          notes := Some "Injective uses authz module instead of per-token approvals" |} |}.

Definition transferFrom_info : FuncInfo :=
  {| name := "transferFrom";
     signature := "transferFrom(address,address,uint256)";
     paramTypes := ["address"; "address"; "uint256"];
     paramNames := ["from"; "to"; "amount"];
     category := "token";
     injectiveMapping :=
       {| msgType := Some "/cosmos.bank.v1beta1.MsgSend";
          steps := None;
          confidence := 0.80%Q;
          matchType := SEMANTIC;
          notes := Some "Requires authz grant check" |} |}.

Definition swapExactTokensForTokens_info : FuncInfo :=
  {| name := "swapExactTokensForTokens";
     signature := "swapExactTokensForTokens(uint256,uint256,address[],address,uint256)";
     paramTypes := ["uint256"; "uint256"; "address[]"; "address"; "uint256"];
     paramNames := ["amountIn"; "amountOutMin"; "path"; "to"; "deadline"];
     category := "swap";
     injectiveMapping :=
       {| msgType := Some "/injective.exchange.v1beta1.MsgCreateSpotMarketOrder";
          steps := None;
          confidence := 0.90%Q;
          matchType := SEMANTIC;
          notes := Some "AMM swap converts to orderbook market order" |} |}.

Definition swapExactETHForTokens_info : FuncInfo :=
  {| name := "swapExactETHForTokens";
     signature := "swapExactETHForTokens(uint256,address[],address,uint256)";
     paramTypes := ["uint256"; "address[]"; "address"; "uint256"];
     paramNames := ["amountOutMin"; "path"; "to"; "deadline"];
     category := "swap";
     injectiveMapping :=
       {| msgType := Some "COMPOSITE";
          steps := Some [ "/injective.exchange.v1beta1.MsgDeposit";
                          "/injective.exchange.v1beta1.MsgCreateSpotMarketOrder" ];
          confidence := 0.85%Q;
          matchType := COMPOSITE;
          notes := Some "Requires deposit to subaccount first" |} |}.

Definition addLiquidity_info : FuncInfo :=
  {| name := "addLiquidity";
     signature := "addLiquidity(address,address,uint256,uint256,uint256,uint256,address,uint256)";
     paramTypes := ["address"; "address"; "uint256"; "uint256"; "uint256"; "uint256";
                    "address"; "uint256"];
     paramNames := ["tokenA"; "tokenB"; "amountADesired"; "amountBDesired"; "amountAMin";
                    "amountBMin"; "to"; "deadline"];
     category := "liquidity";
     injectiveMapping :=
       {| msgType := None;
          steps := None;
          confidence := 0;
          matchType := UNSUPPORTED;
          notes := Some "Injective uses orderbook, not AMM. Consider market making." |} |}.

Definition stake_info : FuncInfo :=
  {| name := "stake";
     signature := "stake(uint256)";
     paramTypes := ["uint256"];
     paramNames := ["amount"];
     category := "staking";
     injectiveMapping :=
       {| msgType := Some "/cosmos.staking.v1beta1.MsgDelegate";
          steps := None;
          confidence := 0.95%Q;
          matchType := DIRECT;
          notes := None |} |}.

Definition withdraw_info : FuncInfo :=
  {| name := "withdraw";
     signature := "withdraw(uint256)";
     paramTypes := ["uint256"];
     paramNames := ["amount"];
     category := "staking";
     injectiveMapping :=
       {| msgType := Some "/cosmos.staking.v1beta1.MsgUndelegate";
          steps := None;
          confidence := 0.95%Q;
          matchType := DIRECT;
          notes := None |} |}.

Definition getReward_info : FuncInfo :=
  {| name := "getReward";
     signature := "getReward()";
     paramTypes := [];
     paramNames := [];
     category := "staking";
     injectiveMapping :=
       {| msgType := Some "/cosmos.distribution.v1beta1.MsgWithdrawDelegatorReward";
          steps := None;
          confidence := 0.95%Q;
          matchType := DIRECT;
          notes := None |} |}.

Definition flashLoan_info : FuncInfo :=
  {| name := "flashLoan";
     signature := "flashLoan(address,address[],uint256[],uint256[],address,bytes,uint16)";
     paramTypes := ["address"; "address[]"; "uint256[]"; "uint256[]"; "address"; "bytes";
                    "uint16"];
     paramNames := ["receiverAddress"; "assets"; "amounts"; "modes"; "onBehalfOf"; "params";
                    "referralCode"];
     category := "flash";
     injectiveMapping :=
       {| msgType := None;
          steps := None;
          confidence := 0;
          matchType := UNSUPPORTED;
          notes := Some "Flash loans not supported on Injective" |} |}.

Definition SELECTOR_ENTRIES : list (string * FuncInfo) :=
  [ ("0xa9059cbb", transfer_info);
    ("0x095ea7b3", approve_info);
    ("0x23b872dd", transferFrom_info);
    ("0x38ed1739", swapExactTokensForTokens_info);
    ("0x7ff36ab5", swapExactETHForTokens_info);
    ("0xe8e33700", addLiquidity_info);
    ("0xa694fc3a", stake_info);
    ("0x2e1a7d4d", withdraw_info);
    ("0x3d18b912", getReward_info);
    ("0xab9c4b5d", flashLoan_info) ].

(** The object literal [SELECTOR_DB], keyed by selector. *)
Definition SELECTOR_DB : gmap string FuncInfo := list_to_map SELECTOR_ENTRIES.

(** [MARKET_MAP['INJ-USDT']?.marketId || '0x000']. *)
Definition MARKET_MAP : gmap string string :=
  list_to_map
    [ ("INJ-USDT", "0x0611780ba69656949525013d947713300f56c37b6175e02f26bffa495c3208fe");
      ("WETH-USDT", "0xd1956e20d74eeb1febe31cd37060781ff1cb266f49e0512b446a5fafa9a16034") ].

(** ** Calldata decoding *)

Record Param : Type := {
  p_name : string;
  p_type : option string;
  p_value : string
}.

(** The object [decodeCalldata] returns and the intent branch of the
    translate route builds; a field the source leaves out is [None]. *)
Record DecodedCall : Type := {
  selector : string;
  functionName : option string;
  dc_signature : option string;
  dc_category : option string;
  parameters : option (list Param);
  decoded : bool;
  error : option string
}.

(** The external capability [ethers.AbiCoder.defaultAbiCoder().decode(types,
    data)] followed by [toString()] on each value: the decoded values as
    strings, or the message of the exception it throws. *)
Definition AbiDecoder : Type := list string -> string -> string + list string.

(** [paramNames.map((name, i) => ({ name, type: paramTypes[i], value:
    decoded[i].toString() }))]; [None] when some [decoded[i]] is undefined,
    where [toString] throws a TypeError. *)
Fixpoint named_params (names : list string) (i : nat) (types values : list string)
  : option (list Param) :=
  match names with
  | [] => Some []
  | n :: rest =>
      match values !! i with
      | None => None
      | Some v =>
          cons {| p_name := n; p_type := types !! i; p_value := v |}
            <$> named_params rest (S i) types values
      end
  end.

Definition unknown_selector (sel : string) : DecodedCall :=
  {| selector := sel; functionName := None; dc_signature := None; dc_category := None;
     parameters := None; decoded := false; error := Some "Unknown selector" |}.

Definition decode_failure (sel : string) (f : FuncInfo) (message : string) : DecodedCall :=
  {| selector := sel; functionName := Some (name f); dc_signature := None;
     dc_category := None; parameters := None; decoded := false; error := Some message |}.

Definition decoded_call (sel : string) (f : FuncInfo) (params : list Param) : DecodedCall :=
  {| selector := sel; functionName := Some (name f); dc_signature := Some (signature f);
     dc_category := Some (category f); parameters := Some params; decoded := true;
     error := None |}.

(** The precondition checked first: [calldata?.startsWith('0x')] and
    [calldata.length >= 10]. *)
Definition well_formed (calldata : option string) : bool :=
  match calldata with
  | None => false
  | Some cd => JS.startsWith cd "0x" && (10 <=? String.length cd)%nat
  end.

Definition decodeCalldata (abi : AbiDecoder) (calldata : option string)
  : JS.Completion DecodedCall :=
  match calldata with
  | None => JS.Throw "Invalid calldata"
  | Some cd =>
      if negb (JS.startsWith cd "0x") || (String.length cd <? 10)%nat
      then JS.Throw "Invalid calldata"
      else
        let sel := JS.toLowerCase (JS.slice cd 0 10) in
        let paramsData := "0x" ++ JS.slice_from cd 10 in
        match SELECTOR_DB !! sel with
        | None => JS.Return (unknown_selector sel)
        | Some funcInfo =>
            if (0 <? length (paramTypes funcInfo))%nat && (2 <? String.length paramsData)%nat
            then
              match abi (paramTypes funcInfo) paramsData with
              | inl message => JS.Return (decode_failure sel funcInfo message)
              | inr values =>
                  match named_params (paramNames funcInfo) 0 (paramTypes funcInfo) values with
                  | None =>
                      JS.Return (decode_failure sel funcInfo
                        "Cannot read properties of undefined (reading 'toString')")
                  | Some params => JS.Return (decoded_call sel funcInfo params)
                  end
              end
            else JS.Return (decoded_call sel funcInfo [])
        end
  end.

(** ** Message builders *)

Record Coin : Type := {
  coin_denom : string;
  coin_amount : option string
}.

(** The target-dialect messages; the constructor stands for the ['@type']
    field, see [msg_type]. A field that can be [undefined] is an option. *)
Inductive Message : Type :=
| MsgSend (from_address : string) (to_address : option string) (amount : list Coin)
| MsgDelegate (delegator_address validator_address : string) (amount : Coin)
| MsgUndelegate (delegator_address validator_address : string) (amount : Coin)
| MsgWithdrawDelegatorReward (delegator_address validator_address : string)
| MsgGrant (granter grantee : string) (spend_limit : list Coin) (expiration : string)
| MsgCreateSpotMarketOrder (sender market_id subaccount_id fee_recipient price : string)
    (quantity : option string) (order_type : Z) (trigger_price : string)
| MsgDeposit (sender subaccount_id : string) (amount : Coin).

Definition msg_type (m : Message) : string :=
  match m with
  | MsgSend _ _ _ => "/cosmos.bank.v1beta1.MsgSend"
  | MsgDelegate _ _ _ => "/cosmos.staking.v1beta1.MsgDelegate"
  | MsgUndelegate _ _ _ => "/cosmos.staking.v1beta1.MsgUndelegate"
  | MsgWithdrawDelegatorReward _ _ => "/cosmos.distribution.v1beta1.MsgWithdrawDelegatorReward"
  | MsgGrant _ _ _ _ => "/cosmos.authz.v1beta1.MsgGrant"
  | MsgCreateSpotMarketOrder _ _ _ _ _ _ _ _ =>
      "/injective.exchange.v1beta1.MsgCreateSpotMarketOrder"
  | MsgDeposit _ _ _ => "/injective.exchange.v1beta1.MsgDeposit"
  end.

Definition getSubaccountId (address : string) : string :=
  "0x" ++ JS.padStart (JS.replace address "inj" "") 40 "0" ++ JS.repeat "0" 24.

Definition year_ms : Z := 365 * 24 * 60 * 60 * 1000.

Module Builders.

Definition MsgSend (from : string) (to : option string) (amount denom : option string)
  : Message :=
  MsgSend from to [ {| coin_denom := JS.param_default denom "inj"; coin_amount := amount |} ].

Definition MsgDelegate (delegator : string) (validator amount : option string) : Message :=
  MsgDelegate delegator (JS.or_lit validator "injvaloper1xxx")
    {| coin_denom := "inj"; coin_amount := amount |}.

Definition MsgUndelegate (delegator : string) (validator amount : option string) : Message :=
  MsgUndelegate delegator (JS.or_lit validator "injvaloper1xxx")
    {| coin_denom := "inj"; coin_amount := amount |}.

Definition MsgWithdrawReward (delegator : string) (validator : option string) : Message :=
  MsgWithdrawDelegatorReward delegator (JS.or_lit validator "injvaloper1xxx").

(** Reads the clock: [expiration] is one year after [now]. *)
Definition MsgGrant (now : Z) (granter grantee : string) (amount denom : option string)
  : Message :=
  MsgGrant granter grantee
    [ {| coin_denom := JS.param_default denom "inj"; coin_amount := amount |} ]
    (JS.toISOString (now + year_ms)).

Definition MsgSpotOrder (sender marketId : string) (quantity : option string) (orderType : Z)
  : Message :=
  MsgCreateSpotMarketOrder sender marketId (getSubaccountId sender) sender "0" quantity
    orderType "0".

Definition MsgDeposit (sender : string) (amount : string) : Message :=
  MsgDeposit sender (getSubaccountId sender)
    {| coin_denom := "inj"; coin_amount := Some amount |}.

End Builders.

(** ** Translation engine *)

(** The caller-supplied context object; an absent field is [None]. *)
Record Context : Type := {
  senderAddress : option string;
  recipientAddress : option string;
  spenderAddress : option string;
  validator : option string;
  denom : option string;
  ethValue : option string
}.

Definition empty_context : Context :=
  {| senderAddress := None; recipientAddress := None; spenderAddress := None;
     validator := None; denom := None; ethValue := None |}.

Record Metadata : Type := {
  md_confidence : Q;
  md_matchType : MatchType;
  warnings : list string;
  originalFunction : string
}.

Inductive TranslateResult : Type :=
| Failure (code : string) (message : option string)
| Success (messages : list Message) (explanation : string) (metadata : Metadata).

(** [const params = {}; decoded.parameters?.forEach(p => params[p.name] =
    p.value)]: a later parameter of the same name overwrites an earlier one.
    (A parameter named [__proto__], which JavaScript would not store as an
    own property, is outside the embedding; no rule reads it.) *)
Definition collect_params (d : DecodedCall) : gmap string string :=
  foldl (fun params p => <[p_name p := p_value p]> params) ∅ (default [] (parameters d)).

Definition market_id : string := default "0x000" (MARKET_MAP !! "INJ-USDT").

(** The [switch (funcInfo.name)] of [translate]: the messages pushed and the
    explanation, or [None] in the [default] case. *)
Definition build_messages (now : Z) (fname : string) (sender : string) (ctx : Context)
    (params : gmap string string) : option (list Message * string) :=
  if String.eqb fname "transfer" then
    Some ([ Builders.MsgSend sender
              (Some (JS.or_lit (JS.or_else (recipientAddress ctx) (params !! "to"))
                               "inj1recipient"))
              (params !! "amount") (denom ctx) ],
          "Transfer " ++ JS.interpolate (params !! "amount") ++ " tokens")
  else if String.eqb fname "approve" then
    Some ([ Builders.MsgGrant now sender
              (JS.or_lit (JS.or_else (spenderAddress ctx) (params !! "spender")) "inj1spender")
              (params !! "amount") (denom ctx) ],
          "Grant spending authorization")
  else if String.eqb fname "transferFrom" then
    Some ([ Builders.MsgSend (JS.or_lit (params !! "from") sender)
              (JS.or_else (params !! "to") (recipientAddress ctx))
              (params !! "amount") (denom ctx) ],
          "Transfer from authorized account")
  else if String.eqb fname "swapExactTokensForTokens" then
    Some ([ Builders.MsgSpotOrder sender market_id (params !! "amountIn") 1 ],
          "Swap via spot market order")
  else if String.eqb fname "swapExactETHForTokens" then
    Some ([ Builders.MsgDeposit sender (JS.or_lit (ethValue ctx) "0");
            Builders.MsgSpotOrder sender market_id (Some (JS.or_lit (ethValue ctx) "0")) 2 ],
          "Deposit then swap (2-step)")
  else if String.eqb fname "stake" then
    Some ([ Builders.MsgDelegate sender (validator ctx) (params !! "amount") ],
          "Delegate " ++ JS.interpolate (params !! "amount") ++ " INJ")
  else if String.eqb fname "withdraw" then
    Some ([ Builders.MsgUndelegate sender (validator ctx) (params !! "amount") ],
          "Undelegate " ++ JS.interpolate (params !! "amount") ++ " INJ")
  else if String.eqb fname "getReward" then
    Some ([ Builders.MsgWithdrawReward sender (validator ctx) ], "Claim staking rewards")
  else None.

Definition translate (now : Z) (d : DecodedCall) (ctx : Context) : TranslateResult :=
  let sender := JS.or_lit (senderAddress ctx) "inj1xxx" in
  match SELECTOR_DB !! selector d with
  | None => Failure "UNSUPPORTED" (Some "Function not supported")
  | Some funcInfo =>
      let mapping := injectiveMapping funcInfo in
      if decide (matchType mapping = UNSUPPORTED)
      then Failure "UNSUPPORTED_PATTERN" (notes mapping)
      else
        match build_messages now (name funcInfo) sender ctx (collect_params d) with
        | None => Failure "NO_BUILDER" (Some ("No builder for " ++ name funcInfo))
        | Some (messages, explanation) =>
            Success messages explanation
              {| md_confidence := confidence mapping;
                 md_matchType := matchType mapping;
                 warnings := if JS.truthy (notes mapping)
                             then [JS.interpolate (notes mapping)] else [];
                 originalFunction := signature funcInfo |}
        end
  end.

(** ** The translate route *)

(** [req.body.input]: its [type] selects the branch; [params] holds the
    entries of the intent's parameter object, values already strings. *)
Inductive Input : Type :=
| Calldata (data : option string)
| Intent (action : option string) (params : option (list (string * string)))
| OtherType (type : option string).

Record TranslateRequest : Type := {
  input : option Input;
  context : option Context
}.

Record GasEstimate : Type := {
  injectiveGas : string;
  injFee : string;
  savings : string
}.

Inductive TranslateResponse : Type :=
| ErrorResponse (status : Z) (code : string) (message : option string)
| TranslationResponse (messages : list Message) (explanation : string)
    (metadata : Metadata) (gasEstimate : GasEstimate).

Definition intentMap : gmap string string :=
  list_to_map
    [ ("transfer", "0xa9059cbb"); ("approve", "0x095ea7b3"); ("swap", "0x38ed1739");
      ("stake", "0xa694fc3a"); ("unstake", "0x2e1a7d4d"); ("claim", "0x3d18b912") ].

(** Property names every object literal inherits: [intentMap[action]] is a
    truthy non-string for them, the registry lookup that follows finds
    nothing, and reading [funcInfo.name] throws. *)
Definition object_prototype_keys : list string :=
  [ "constructor"; "__proto__"; "hasOwnProperty"; "isPrototypeOf"; "propertyIsEnumerable";
    "toLocaleString"; "toString"; "valueOf"; "__defineGetter__"; "__defineSetter__";
    "__lookupGetter__"; "__lookupSetter__" ].

(** The decoded call of the [input.type === 'intent'] branch:
    [Object.entries(input.params || {}).map(([name, value]) => ({ name,
    value: String(value) }))]. *)
Definition intent_call (sel : string) (f : FuncInfo) (params : option (list (string * string)))
  : DecodedCall :=
  {| selector := sel; functionName := Some (name f); dc_signature := Some (signature f);
     dc_category := Some (category f);
     parameters :=
       Some (map (fun '(n, v) => {| p_name := n; p_type := None; p_value := v |})
                 (default [] params));
     decoded := true; error := None |}.

Definition type_error_name : string := "Cannot read properties of undefined (reading 'name')".

(** The body of the route up to the call of [translate]: the decoded call,
    or the response sent early. *)
Definition decode_input (abi : AbiDecoder) (i : Input) : TranslateResponse + DecodedCall :=
  match i with
  | Calldata data =>
      match decodeCalldata abi data with
      | JS.Throw message => inl (ErrorResponse 500 "ERROR" (Some message))
      | JS.Return d =>
          if negb (decoded d) then inl (ErrorResponse 400 "DECODE_FAILED" (error d))
          else inr d
      end
  | Intent action params =>
      let key := JS.interpolate action in
      match intentMap !! key with
      | None =>
          if bool_decide (key ∈ object_prototype_keys)
          then inl (ErrorResponse 500 "ERROR" (Some type_error_name))
          else inl (ErrorResponse 400 "UNKNOWN_INTENT" (Some ("Unknown: " ++ key)))
      | Some sel =>
          match SELECTOR_DB !! sel with
          | None => inl (ErrorResponse 500 "ERROR" (Some type_error_name))
          | Some funcInfo => inr (intent_call sel funcInfo params)
          end
      end
  | OtherType _ => inl (ErrorResponse 400 "INVALID_TYPE" (Some "Use calldata or intent"))
  end.

Definition gas_estimate : GasEstimate :=
  {| injectiveGas := "100000"; injFee := "0.00005 INJ"; savings := "~95% cheaper" |}.

(** [app.post('/api/v1/translate')]. *)
Definition translate_route (abi : AbiDecoder) (now : Z) (req : TranslateRequest)
  : TranslateResponse :=
  match input req with
  | None => ErrorResponse 400 "MISSING_INPUT" (Some "Input required")
  | Some i =>
      match decode_input abi i with
      | inl response => response
      | inr d =>
          match translate now d (default empty_context (context req)) with
          | Failure code message => ErrorResponse 422 code message
          | Success messages explanation metadata =>
              TranslationResponse messages explanation metadata gas_estimate
          end
      end
  end.

(** ** The compatibility route *)

Module Verdict.
Inductive t : Type := SUPPORTED | PARTIAL | UNSUPPORTED | UNKNOWN.

Global Instance eq_dec : EqDecision t.
Proof. solve_decision. Defined.
End Verdict.

(** An element of [contractAbi]: [{ type, name, inputs: [{ type }, ...] }]. *)
Record AbiItem : Type := {
  item_type : option string;
  item_name : option string;
  inputs : option (list (option string))
}.

(** The signature both reporting routes derive from an ABI item:
    [`${func.name}(${(func.inputs || []).map(i => i.type).join(',')})`]. *)
Definition signature_of (func : AbiItem) : string :=
  JS.interpolate (item_name func) ++ "(" ++ JS.join (default [] (inputs func)) ++ ")".

Definition is_function (i : AbiItem) : bool :=
  bool_decide (item_type i = Some "function").

(** [ethers.id(text).slice(0, 10)]; on a well-formed string [ethers.id]
    does not throw, so the [catch] arm that sets the selector to [null] is
    never taken. *)
Definition selector_of (text : string) : string := JS.slice (ethers_id text) 0 10.

Record PatternResult : Type := {
  pattern : string;
  status : Verdict.t;
  injectiveEquivalent : option string;
  pr_confidence : option Q;
  pr_notes : option string
}.

Definition classify_pattern (p : string) : PatternResult :=
  match SELECTOR_DB !! selector_of p with
  | None =>
      let lower := JS.toLowerCase p in
      if JS.includes lower "flash" then
        {| pattern := p; status := Verdict.UNSUPPORTED; injectiveEquivalent := None;
           pr_confidence := None; pr_notes := Some "Flash loans not supported" |}
      else if JS.includes lower "liquidity" then
        {| pattern := p; status := Verdict.UNSUPPORTED; injectiveEquivalent := None;
           pr_confidence := None; pr_notes := Some "AMM not supported" |}
      else
        {| pattern := p; status := Verdict.UNKNOWN; injectiveEquivalent := None;
           pr_confidence := None; pr_notes := Some "Not in database" |}
  | Some funcInfo =>
      let m := injectiveMapping funcInfo in
      {| pattern := p;
         status := match matchType m with
                   | UNSUPPORTED => Verdict.UNSUPPORTED
                   | DIRECT => Verdict.SUPPORTED
                   | _ => Verdict.PARTIAL
                   end;
         injectiveEquivalent := msgType m;
         pr_confidence := Some (confidence m);
         pr_notes := notes m |}
  end.

Definition count_status (v : Verdict.t) (results : list PatternResult) : nat :=
  length (filter (fun r => status r = v) results).

(** [Math.round(((supported + partial * 0.5) / total) * 100)]. The counters
    are array lengths, so [supported + partial * 0.5] is exact; the quotient
    and the product are rounded. *)
Definition percent_score (supported partial total : nat) : Z :=
  JS.Math_round
    (Double.mul
       (Double.div
          (inject_Z (Z.of_nat supported) + inject_Z (Z.of_nat partial) * (1 # 2))%Q
          (inject_Z (Z.of_nat total)))
       100).

Inductive CompatibilityStatus : Type :=
| MOSTLY_COMPATIBLE | PARTIALLY_COMPATIBLE | INCOMPATIBLE.

Definition compatibility_status (score : Z) : CompatibilityStatus :=
  if (80 <=? score)%Z then MOSTLY_COMPATIBLE
  else if (50 <=? score)%Z then PARTIALLY_COMPATIBLE
  else INCOMPATIBLE.

Record CompatibilityRequest : Type := {
  patterns : option (list string);
  contractAbi : option (list AbiItem)
}.

Inductive CompatibilityResponse : Type :=
| CompatibilityError (status : Z) (code message : string)
| CompatibilityReport (score : Z) (status : CompatibilityStatus) (summary : string)
    (patterns : list PatternResult) (recommendations : list string).

(** [app.post('/api/v1/compatibility')]. *)
Definition compatibility_route (req : CompatibilityRequest) : CompatibilityResponse :=
  let allPatterns :=
    (default [] (patterns req)
       ++ map signature_of (List.filter is_function (default [] (contractAbi req))))%list in
  match allPatterns with
  | [] => CompatibilityError 400 "MISSING_INPUT" "Provide patterns or ABI"
  | _ =>
      let results := map classify_pattern allPatterns in
      let supported := count_status Verdict.SUPPORTED results in
      let partial := count_status Verdict.PARTIAL results in
      let unsupported :=
        (count_status Verdict.UNSUPPORTED results + count_status Verdict.UNKNOWN results)%nat in
      let score := percent_score supported partial (length results) in
      CompatibilityReport score (compatibility_status score)
        (pretty supported ++ "/" ++ pretty (length results) ++ " supported")
        results
        ((if (supported <? length results)%nat then ["Some patterns need workarounds"] else [])
           ++ (if (0 <? unsupported)%nat
               then ["Unsupported patterns require redesign"] else []))%list
  end.

(** ** The migration-estimate route *)

Module Status.
Inductive t : Type := supported | partial | unsupported.

Global Instance eq_dec : EqDecision t.
Proof. solve_decision. Defined.
End Status.

Record Detail : Type := {
  d_name : option string;
  d_signature : string;
  d_status : Status.t;
  migrationPath : option string
}.

(** The counters [supported], [partial], [unsupported] the callback of
    [functions.map] increments, together with the details produced so far. *)
Record Tally : Type := {
  supported : nat;
  partial : nat;
  unsupported : nat;
  details : list Detail
}.

Definition classify_function (func : AbiItem) : Status.t * option string :=
  let info := SELECTOR_DB !! selector_of (signature_of func) in
  match info with
  | Some i =>
      match matchType (injectiveMapping i) with
      | DIRECT => (Status.supported, msgType (injectiveMapping i))
      | UNSUPPORTED => (Status.unsupported, Some "Requires redesign")
      | _ => (Status.partial, Some (JS.or_lit (msgType (injectiveMapping i)) "Custom handler"))
      end
  | None => (Status.partial, Some "Custom handler")
  end.

Definition estimate_step (acc : Tally) (func : AbiItem) : Tally :=
  let '(st, path) := classify_function func in
  let detail := {| d_name := item_name func; d_signature := signature_of func;
                   d_status := st; migrationPath := path |} in
  match st with
  | Status.supported =>
      {| supported := S (supported acc); partial := partial acc;
         unsupported := unsupported acc; details := (details acc ++ [detail])%list |}
  | Status.unsupported =>
      {| supported := supported acc; partial := partial acc;
         unsupported := S (unsupported acc); details := (details acc ++ [detail])%list |}
  | Status.partial =>
      {| supported := supported acc; partial := S (partial acc);
         unsupported := unsupported acc; details := (details acc ++ [detail])%list |}
  end.

Definition estimate_tally (functions : list AbiItem) : Tally :=
  foldl estimate_step
    {| supported := 0; partial := 0; unsupported := 0; details := [] |} functions.

Inductive Feasibility : Type := STRAIGHTFORWARD | MODERATE | COMPLEX | REQUIRES_REDESIGN.

Definition complexity (t : Tally) (total : nat) : Q :=
  Double.div
    (inject_Z (Z.of_nat (supported t + partial t * 2 + unsupported t * 4)))
    (inject_Z (Z.of_nat total)).

Definition feasibility_of (c : Q) : Feasibility :=
  if Qle_bool (3 # 2) c then
    if Qle_bool (5 # 2) c then
      if Qle_bool (7 # 2) c then REQUIRES_REDESIGN else COMPLEX
    else MODERATE
  else STRAIGHTFORWARD.

Inductive EstimateResponse : Type :=
| EstimateError (status : Z) (code message : string)
| EstimateReport (feasibility : Feasibility) (featureParity : Z) (total : nat)
    (tally : Tally) (blockers : list string).

(** [app.post('/api/v1/migrate/estimate')]. The effort hours, which the
    source scales by [Math.log2], are not part of the embedding. *)
Definition estimate_route (contractAbi : option (list AbiItem)) : EstimateResponse :=
  match default [] contractAbi with
  | [] => EstimateError 400 "MISSING_INPUT" "Provide contractAbi"
  | abi =>
      let functions := List.filter is_function abi in
      let t := estimate_tally functions in
      let total := match length functions with O => 1%nat | n => n end in
      EstimateReport (feasibility_of (complexity t total))
        (percent_score (supported t) (partial t) total) total t
        (if (0 <? unsupported t)%nat then ["Unsupported patterns"] else [])
  end.

(** ** A reference instance of the ABI-decode capability

    The routes are parametric in the decoder. To run them on concrete
    calldata this instance covers the one case where the capability's
    behaviour is a plain radix conversion: every type is [uint256], and the
    value of each is its 32-byte big-endian word printed in decimal. Any
    other type list is reported as a failure of the instance. *)

Module ReferenceAbi.

Definition hex_value (c : ascii) : option N :=
  let n := N_of_ascii c in
  if (48 <=? n)%N && (n <=? 57)%N then Some (n - 48)%N
  else if (97 <=? n)%N && (n <=? 102)%N then Some (n - 87)%N
  else if (65 <=? n)%N && (n <=? 70)%N then Some (n - 55)%N
  else None.

Fixpoint hex_number (s : string) (acc : N) : option N :=
  match s with
  | EmptyString => Some acc
  | String c rest =>
      match hex_value c with
      | Some d => hex_number rest (16 * acc + d)%N
      | None => None
      end
  end.

Fixpoint words (n : nat) (payload : string) : string + list string :=
  match n with
  | O => inr []
  | S n' =>
      let word := String.substring 0 64 payload in
      if (String.length word <? 64)%nat then inl "data out-of-bounds"
      else
        match hex_number word 0 with
        | None => inl "invalid BytesLike value"
        | Some v =>
            match words n' (JS.slice_from payload 64) with
            | inl e => inl e
            | inr vs => inr (pretty v :: vs)
            end
        end
  end.

Definition decode : AbiDecoder := fun types data =>
  if forallb (String.eqb "uint256") types
  then words (length types) (JS.slice_from data 2)
  else inl "type outside the reference instance".

End ReferenceAbi.

Definition stake_calldata : string :=
  "0xa694fc3a000000000000000000000000000000000000000000000000000000012a05f200".

(** ** Definitions used to state the properties *)

(** The request of the specification's translation example. *)
Definition transfer_intent_request : TranslateRequest :=
  {| input := Some (Intent (Some "transfer") (Some [("amount", "1000000000")]));
     context := Some {| senderAddress := Some "A"; recipientAddress := Some "B";
                        spenderAddress := None; validator := None; denom := None;
                        ethValue := None |} |}.

(** The request of the specification's scoring example. *)
Definition scoring_example : CompatibilityRequest :=
  {| patterns := Some [ "transfer(address,uint256)"; "approve(address,uint256)";
                        "flashLoan(address,uint256)" ];
     contractAbi := None |}.

(** The data invariant of a mapping descriptor, as the specification words
    it: the three conditions are equivalent, and a supported mapping has a
    confidence in (0, 1] and a target message type. *)
Definition mapping_invariant (m : InjectiveMapping) : Prop :=
  (matchType m = UNSUPPORTED <-> (confidence m == 0)%Q)
  /\ ((confidence m == 0)%Q <-> msgType m = None)
  /\ (matchType m = UNSUPPORTED <-> msgType m = None)
  /\ (matchType m <> UNSUPPORTED ->
      (0 < confidence m)%Q /\ (confidence m <= 1)%Q /\ is_Some (msgType m)).

(** The classification rule of the migration estimator in words: DIRECT is
    supported, UNSUPPORTED is unsupported, and everything else (SEMANTIC,
    COMPOSITE, or a signature with no registry entry) is partial. *)
Definition migration_class (info : option FuncInfo) : Status.t :=
  match info with
  | None => Status.partial
  | Some i =>
      match matchType (injectiveMapping i) with
      | DIRECT => Status.supported
      | SEMANTIC | COMPOSITE => Status.partial
      | UNSUPPORTED => Status.unsupported
      end
  end.

Definition resolve (func : AbiItem) : option FuncInfo :=
  SELECTOR_DB !! selector_of (signature_of func).

(** The migration path reported with the class, in words: the message type
    of the entry for a DIRECT entry, "Requires redesign" for an UNSUPPORTED
    one, the message type of the entry (or "Custom handler" if it names
    none) for a SEMANTIC or COMPOSITE one, and "Custom handler" for a
    signature with no registry entry. *)
Definition migration_path (info : option FuncInfo) : option string :=
  match info with
  | None => Some "Custom handler"
  | Some i =>
      match matchType (injectiveMapping i) with
      | DIRECT => msgType (injectiveMapping i)
      | SEMANTIC | COMPOSITE =>
          Some (JS.or_lit (msgType (injectiveMapping i)) "Custom handler")
      | UNSUPPORTED => Some "Requires redesign"
      end
  end.

Definition count_class (c : Status.t) (functions : list AbiItem) : nat :=
  length (filter (fun func => migration_class (resolve func) = c) functions).

(** A function description whose signature, [mint(address,uint256)], has no
    registry entry. *)
Definition mint_function : AbiItem :=
  {| item_type := Some "function"; item_name := Some "mint";
     inputs := Some [Some "address"; Some "uint256"] |}.

(** The decoded call of a [transferFrom(0x11.., 0x22.., 5)] calldata, and a
    context that names both a sender and a recipient. *)
Definition transferFrom_call : DecodedCall :=
  {| selector := "0x23b872dd"; functionName := Some "transferFrom";
     dc_signature := Some "transferFrom(address,address,uint256)";
     dc_category := Some "token";
     parameters :=
       Some [ {| p_name := "from"; p_type := Some "address";
                 p_value := "0x1111111111111111111111111111111111111111" |};
              {| p_name := "to"; p_type := Some "address";
                 p_value := "0x2222222222222222222222222222222222222222" |};
              {| p_name := "amount"; p_type := Some "uint256"; p_value := "5" |} ];
     decoded := true; error := None |}.

Definition both_addresses : Context :=
  {| senderAddress := Some "inj1sender"; recipientAddress := Some "inj1recipient";
     spenderAddress := None; validator := None; denom := None; ethValue := None |}.

(** An [approve] intent. *)
Definition approve_request : TranslateRequest :=
  {| input := Some (Intent (Some "approve") (Some [("amount", "1000")]));
     context := Some {| senderAddress := Some "inj1sender"; recipientAddress := None;
                        spenderAddress := Some "inj1spender"; validator := None;
                        denom := None; ethValue := None |} |}.

(** The amount a message carries, where it has one: the coin amount, or the
    quantity of a spot order. *)
Definition amount_of (m : Message) : list (option string) :=
  match m with
  | MsgSend _ _ coins => map coin_amount coins
  | MsgDelegate _ _ c => [coin_amount c]
  | MsgUndelegate _ _ c => [coin_amount c]
  | MsgWithdrawDelegatorReward _ _ => []
  | MsgGrant _ _ coins _ => map coin_amount coins
  | MsgCreateSpotMarketOrder _ _ _ _ _ quantity _ _ => [quantity]
  | MsgDeposit _ _ c => [coin_amount c]
  end.

(** The functions whose construction rule reads the amount from a decoded
    parameter ([params.amount], [params.amountIn]). *)
Definition amount_from_params : list string :=
  [ "transfer"; "approve"; "transferFrom"; "swapExactTokensForTokens"; "stake"; "withdraw" ].

(** The function names the [switch] of [translate] has a case for. *)
Definition builder_names : list string :=
  [ "transfer"; "approve"; "transferFrom"; "swapExactTokensForTokens";
    "swapExactETHForTokens"; "stake"; "withdraw"; "getReward" ].

(** What translating a call without parameters to the entry [f] stored
    under [k] gives: a success with at least one message, and no amount in
    any message when the rule takes the amount from the parameters. *)
Definition translates_without_parameters (k : string) (f : FuncInfo) : Prop :=
  forall (now : Z) (ctx : Context),
    matchType (injectiveMapping f) <> UNSUPPORTED ->
    exists messages explanation metadata,
      translate now (decoded_call k f []) ctx = Success messages explanation metadata
      /\ messages <> []
      /\ (In (name f) amount_from_params ->
          Forall (fun m => Forall (fun a => a = None) (amount_of m)) messages).

(** ** Definitions used to state further properties *)

(** The ABI description of a registry entry: a function item with the
    entry's name and parameter types. *)
Definition abi_item_of (f : FuncInfo) : AbiItem :=
  {| item_type := Some "function"; item_name := Some (name f);
     inputs := Some (map Some (paramTypes f)) |}.

(** The message types a mapping names: its [steps] when it has them, its
    [msgType] otherwise. *)
Definition target_types (m : InjectiveMapping) : list string :=
  match steps m with
  | Some l => l
  | None => match msgType m with Some t => [t] | None => [] end
  end.

(** The value of the last decoded parameter called [n], if there is one. *)
Definition last_param (n : string) (d : DecodedCall) : option string :=
  p_value <$> last (filter (fun p => p_name p = n) (default [] (parameters d))).

(** The metadata [translate] attaches to a translation of the entry [f]. *)
Definition metadata_of (f : FuncInfo) : Metadata :=
  {| md_confidence := confidence (injectiveMapping f);
     md_matchType := matchType (injectiveMapping f);
     warnings := match notes (injectiveMapping f) with Some n => [n] | None => [] end;
     originalFunction := signature f |}.

(** The functions whose construction rule copies [params.amount]. *)
Definition amount_names : list string :=
  [ "transfer"; "approve"; "transferFrom"; "stake"; "withdraw" ].

(** A decoded [transfer(0x22.., 5)] call. *)
Definition transfer_call : DecodedCall :=
  decoded_call "0xa9059cbb" transfer_info
    [ {| p_name := "to"; p_type := Some "address";
         p_value := "0x2222222222222222222222222222222222222222" |};
      {| p_name := "amount"; p_type := Some "uint256"; p_value := "5" |} ].

(** The (status, code) pairs of the error responses the translate route
    sends. *)
Definition translate_route_errors : list (Z * string) :=
  [ (400, "MISSING_INPUT"); (400, "DECODE_FAILED"); (400, "UNKNOWN_INTENT");
    (400, "INVALID_TYPE"); (422, "UNSUPPORTED_PATTERN"); (500, "ERROR") ]%Z.

(** The call [decodeCalldata] returns for [stake_calldata] under the
    reference decoder. *)
Definition stake_call : DecodedCall :=
  decoded_call "0xa694fc3a" stake_info
    [ {| p_name := "amount"; p_type := Some "uint256"; p_value := "5000000000" |} ].

(** The [allPatterns] of the compatibility route: the explicit patterns,
    then the signature of every function item of the ABI. *)
Definition all_patterns (req : CompatibilityRequest) : list string :=
  (default [] (patterns req)
     ++ map signature_of (List.filter is_function (default [] (contractAbi req))))%list.

(** The score of a compatibility report and the feature parity of a
    migration estimate, when the route answers with one. *)
Definition report_score (r : CompatibilityResponse) : option Z :=
  match r with
  | CompatibilityReport score _ _ _ _ => Some score
  | CompatibilityError _ _ _ => None
  end.

Definition report_parity (r : EstimateResponse) : option Z :=
  match r with
  | EstimateReport _ parity _ _ _ => Some parity
  | EstimateError _ _ _ => None
  end.

(** The functions of a list whose signature has no registry entry. *)
Definition unregistered (functions : list AbiItem) : list AbiItem :=
  List.filter (fun func => match resolve func with None => true | Some _ => false end)
    functions.

(** An ABI of two registered functions, one DIRECT and one SEMANTIC. *)
Definition token_abi : list AbiItem :=
  [abi_item_of transfer_info; abi_item_of approve_info].

(** Text made of ASCII characters only. *)
Fixpoint ascii_text (s : string) : bool :=
  match s with
  | EmptyString => true
  | String c rest => (nat_of_ascii c <? 128)%nat && ascii_text rest
  end.

(** One of the characters 0-9 and a-f. *)
Definition lower_hex_digit (c : ascii) : bool :=
  let n := N_of_ascii c in
  ((48 <=? n) && (n <=? 57) || (97 <=? n) && (n <=? 102))%N.

(** * Properties *)

(** ** The embedding on known values *)

(** The permutation and the absorption of several blocks, checked on
    SHA3-256 digests: 200 bytes span two blocks, 135 bytes take the
    one-byte padding. *)
Example sha3_two_blocks :
  Keccak.hex_of_bytes (Keccak.sha3_256 (List.repeat 97%N 200))
  = "cce34485baf2bf2aca99b94833892a4f52896d3d153f7b840cc4f9fe695f1387".
Proof. vm_compute. reflexivity. Qed.

Example sha3_one_byte_padding :
  Keccak.hex_of_bytes (Keccak.sha3_256 (List.repeat 98%N 135))
  = "bbcfe2803f2108ca1d38b9f9f5499cec8535096c9156e895817b60f407e229f4".
Proof. vm_compute. reflexivity. Qed.

Example keccak_empty :
  ethers_id "" = "0xc5d2460186f7233c927e7db2dcc703c0e500b653ca82273b7bfad8045d85a470".
Proof. vm_compute. reflexivity. Qed.

Example toISOString_epoch : JS.toISOString 0 = "1970-01-01T00:00:00.000Z".
Proof. vm_compute. reflexivity. Qed.

Example toISOString_2026 : JS.toISOString 1770114600000 = "2026-02-03T10:30:00.000Z".
Proof. vm_compute. reflexivity. Qed.

Example toISOString_leap : JS.toISOString 951782400123 = "2000-02-29T00:00:00.123Z".
Proof. vm_compute. reflexivity. Qed.

Example selector_db_lookup : name <$> SELECTOR_DB !! "0xa694fc3a" = Some "stake".
Proof. vm_compute. reflexivity. Qed.

Example selector_of_transfer : selector_of "transfer(address,uint256)" = "0xa9059cbb".
Proof. vm_compute. reflexivity. Qed.

Example translate_stake_calldata :
  translate_route ReferenceAbi.decode 0
    {| input := Some (Calldata (Some stake_calldata));
       context := Some {| senderAddress := Some "inj1abc"; recipientAddress := None;
                          spenderAddress := None; validator := Some "injvaloper1xyz";
                          denom := None; ethValue := None |} |}
  = TranslationResponse
      [ MsgDelegate "inj1abc" "injvaloper1xyz"
          {| coin_denom := "inj"; coin_amount := Some "5000000000" |} ]
      "Delegate 5000000000 INJ"
      {| md_confidence := 0.95%Q; md_matchType := DIRECT; warnings := [];
         originalFunction := "stake(uint256)" |}
      gas_estimate.
Proof. vm_compute. reflexivity. Qed.

(** Rounding to binary64 on known values: 0.1 and 1/3 are the nearest
    values with a 53-bit significand, and 100 is kept. The score of 11
    supported and 1 partial pattern of 20 is 57: the quotient 0.575 is
    rounded below itself and its hundredfold to 57.49999999999999, where
    exact arithmetic would give 57.5 and hence 58. Likewise for 23 of 40 and
    57 of 200; 1 of 8 is an exact 12.5 and rounds up. *)
Example nearest_binary64 :
  Double.nearest (1 # 10) = (3602879701896397 # 36028797018963968)%Q
  /\ Double.nearest (1 # 3) = (6004799503160661 # 18014398509481984)%Q
  /\ Double.nearest 100 = 100%Q
  /\ Double.mul (Double.div (23 # 2) 20) 100
     = (8092405580431359 # 140737488355328)%Q.
Proof. repeat split; vm_compute; reflexivity. Qed.

Example percent_score_binary64 :
  percent_score 11 1 20 = 57%Z
  /\ percent_score 23 0 40 = 57%Z
  /\ percent_score 57 0 200 = 28%Z
  /\ percent_score 1 0 8 = 13%Z
  /\ percent_score 1 1 3 = 50%Z.
Proof. repeat split; vm_compute; reflexivity. Qed.

(** ** The registry *)

(** A property of every listed entry holds of every entry found by lookup. *)
Lemma registry_ind (P : string -> FuncInfo -> Prop) :
  Forall (fun kf => P kf.1 kf.2) SELECTOR_ENTRIES ->
  forall k f, SELECTOR_DB !! k = Some f -> P k f.
Proof.
  intros Hall k f Hlookup.
  apply elem_of_list_to_map_2 in Hlookup.
  rewrite Forall_forall in Hall.
  exact (Hall (k, f) Hlookup).
Qed.

Ltac each_entry :=
  apply registry_ind; unfold SELECTOR_ENTRIES;
  repeat (apply List.Forall_cons; [cbn [fst snd] |]); [.. | exact (List.Forall_nil _)].

(** C8: re-deriving the selector from an entry's signature (Keccak-256 of
    its UTF-8 bytes, first four bytes, lowercase hex after "0x", as the
    scorer does with ethers.id) gives the key the entry is stored under. *)
Theorem selector_roundtrip (k : string) (f : FuncInfo) :
  SELECTOR_DB !! k = Some f -> selector_of (signature f) = k.
Proof.
  revert k f. each_entry; vm_compute; reflexivity.
Qed.

Lemma selector_roundtrip_witness :
  selector_of (signature transfer_info) = "0xa9059cbb".
Proof.
  apply (selector_roundtrip "0xa9059cbb" transfer_info). vm_compute. reflexivity.
Defined.

(** C9: for every mapping descriptor of the registry, being UNSUPPORTED,
    having confidence 0 and having no target message type are equivalent,
    and every other descriptor has a confidence in (0, 1] and a target
    message type. *)
Theorem registry_mapping_invariant (k : string) (f : FuncInfo) :
  SELECTOR_DB !! k = Some f -> mapping_invariant (injectiveMapping f).
Proof.
  revert k f. each_entry; unfold mapping_invariant; cbn;
    repeat split; intros; try discriminate; try congruence; try reflexivity; eauto.
Qed.

Lemma registry_mapping_invariant_witness :
  mapping_invariant (injectiveMapping addLiquidity_info).
Proof.
  apply (registry_mapping_invariant "0xe8e33700" addLiquidity_info). vm_compute. reflexivity.
Defined.

(** ** Translation *)

(** C1: the intent [{action: "transfer", params: {amount: "1000000000"}}]
    with context [{senderAddress: "A", recipientAddress: "B"}] translates to
    exactly one message, a MsgSend from A to B whose amount is the string
    "1000000000" unchanged, with matchType DIRECT in the metadata. *)
Theorem transfer_intent_translation (abi : AbiDecoder) (now : Z) :
  translate_route abi now transfer_intent_request
  = TranslationResponse
      [ MsgSend "A" (Some "B") [ {| coin_denom := "inj"; coin_amount := Some "1000000000" |} ] ]
      "Transfer 1000000000 tokens"
      {| md_confidence := 0.98%Q; md_matchType := DIRECT; warnings := [];
         originalFunction := "transfer(address,uint256)" |}
      gas_estimate.
Proof. vm_compute. reflexivity. Qed.

(** ** Compatibility scoring *)

(** C2: the three patterns of the scoring example get the verdicts
    SUPPORTED, PARTIAL and UNSUPPORTED, the last one without a registry
    entry, through the "flash" keyword; the score is 50 and the status
    PARTIALLY_COMPATIBLE. *)
Theorem scoring_example_report :
  SELECTOR_DB !! selector_of "flashLoan(address,uint256)" = None
  /\ compatibility_route scoring_example
     = CompatibilityReport 50 PARTIALLY_COMPATIBLE "1/3 supported"
         [ {| pattern := "transfer(address,uint256)";
              status := Verdict.SUPPORTED;
              injectiveEquivalent := Some "/cosmos.bank.v1beta1.MsgSend";
              pr_confidence := Some 0.98%Q;
              pr_notes := None |};
           {| pattern := "approve(address,uint256)";
              status := Verdict.PARTIAL;
              injectiveEquivalent := Some "/cosmos.authz.v1beta1.MsgGrant";
              pr_confidence := Some 0.85%Q;
              pr_notes := Some "Injective uses authz module instead of per-token approvals" |};
           {| pattern := "flashLoan(address,uint256)";
              status := Verdict.UNSUPPORTED;
              injectiveEquivalent := None;
              pr_confidence := None;
              pr_notes := Some "Flash loans not supported" |} ]
         [ "Some patterns need workarounds"; "Unsupported patterns require redesign" ]
  /\ percent_score 1 1 3 = 50%Z.
Proof. repeat split; vm_compute; reflexivity. Qed.

(** ** Migration estimate *)

Lemma classify_function_class (func : AbiItem) :
  (classify_function func).1 = migration_class (resolve func).
Proof.
  unfold classify_function, migration_class, resolve.
  destruct (SELECTOR_DB !! selector_of (signature_of func)) as [i|]; [|reflexivity].
  destruct (matchType (injectiveMapping i)); reflexivity.
Qed.

Lemma count_class_cons (c : Status.t) (func : AbiItem) (functions : list AbiItem) :
  count_class c (func :: functions)
  = ((if decide (migration_class (resolve func) = c) then 1 else 0)
     + count_class c functions)%nat.
Proof.
  unfold count_class. rewrite filter_cons.
  destruct (decide (migration_class (resolve func) = c)); reflexivity.
Qed.

(** One step of the callback: the counter of the function's class goes up by
    one, the others stay, and one detail is appended. *)
Lemma estimate_step_spec (acc : Tally) (func : AbiItem) :
  let c := migration_class (resolve func) in
  let t := estimate_step acc func in
  supported t = (supported acc + if decide (c = Status.supported) then 1 else 0)%nat
  /\ partial t = (partial acc + if decide (c = Status.partial) then 1 else 0)%nat
  /\ unsupported t = (unsupported acc + if decide (c = Status.unsupported) then 1 else 0)%nat
  /\ map d_status (details t) = (map d_status (details acc) ++ [c])%list.
Proof.
  cbv zeta. unfold estimate_step.
  rewrite <- (classify_function_class func).
  destruct (classify_function func) as [st path]. cbn [fst].
  destruct st; cbn; rewrite ?map_app; cbn; repeat case_decide; try discriminate;
    repeat split; try lia; congruence.
Qed.

Lemma estimate_fold_spec (functions : list AbiItem) (acc : Tally) :
  let t := foldl estimate_step acc functions in
  supported t = (supported acc + count_class Status.supported functions)%nat
  /\ partial t = (partial acc + count_class Status.partial functions)%nat
  /\ unsupported t = (unsupported acc + count_class Status.unsupported functions)%nat
  /\ map d_status (details t)
     = (map d_status (details acc)
          ++ map (fun func => migration_class (resolve func)) functions)%list.
Proof.
  cbv zeta. revert acc.
  induction functions as [|func functions IH]; intros acc.
  - cbn. rewrite app_nil_r. repeat split; lia.
  - cbn [foldl].
    destruct (IH (estimate_step acc func)) as (Hs & Hp & Hu & Hd).
    destruct (estimate_step_spec acc func) as (Hs1 & Hp1 & Hu1 & Hd1).
    rewrite Hs, Hp, Hu, Hd, Hs1, Hp1, Hu1, Hd1, !count_class_cons.
    cbn [map]. rewrite <- app_assoc. cbn [app].
    repeat split; lia.
Qed.

Lemma classify_function_path (func : AbiItem) :
  (classify_function func).2 = migration_path (resolve func).
Proof.
  unfold classify_function, migration_path, resolve.
  destruct (SELECTOR_DB !! selector_of (signature_of func)) as [i|]; [|reflexivity].
  destruct (matchType (injectiveMapping i)); reflexivity.
Qed.

Lemma estimate_step_path (acc : Tally) (func : AbiItem) :
  map migrationPath (details (estimate_step acc func))
  = (map migrationPath (details acc) ++ [migration_path (resolve func)])%list.
Proof.
  unfold estimate_step. rewrite <- (classify_function_path func).
  destruct (classify_function func) as [st path]. cbn [snd].
  destruct st; cbn [details]; rewrite map_app; reflexivity.
Qed.

Lemma estimate_fold_path (functions : list AbiItem) (acc : Tally) :
  map migrationPath (details (foldl estimate_step acc functions))
  = (map migrationPath (details acc)
       ++ map (fun func => migration_path (resolve func)) functions)%list.
Proof.
  revert acc. induction functions as [|func functions IH]; intros acc.
  - cbn. now rewrite app_nil_r.
  - cbn [foldl map]. rewrite IH, estimate_step_path, <- app_assoc. reflexivity.
Qed.

(** C3, counterexample: [mint(address,uint256)] has no registry entry, and
    the estimator counts it in the partial tally, with status partial and
    the migration path "Custom handler"; the unsupported tally stays 0 and
    no blocker is reported. *)
Lemma unresolved_function_is_partial :
  resolve mint_function = None
  /\ estimate_route (Some [mint_function])
     = EstimateReport MODERATE 50 1
         {| supported := 0; partial := 1; unsupported := 0;
            details := [ {| d_name := Some "mint"; d_signature := "mint(address,uint256)";
                            d_status := Status.partial;
                            migrationPath := Some "Custom handler" |} ] |}
         [].
Proof. split; vm_compute; reflexivity. Qed.

(** C3, amended: every function description is classified DIRECT to
    supported, UNSUPPORTED to unsupported, and SEMANTIC, COMPOSITE or
    unresolved to partial, and is reported with the migration path of its
    case; the three tallies count the functions of each class. So every
    unresolved function gets the status partial with the migration path
    "Custom handler" and is counted in the partial tally. *)
Theorem estimate_classification (functions : list AbiItem) :
  let t := estimate_tally functions in
  map d_status (details t) = map (fun func => migration_class (resolve func)) functions
  /\ supported t = count_class Status.supported functions
  /\ partial t = count_class Status.partial functions
  /\ unsupported t = count_class Status.unsupported functions
  /\ map migrationPath (details t)
     = map (fun func => migration_path (resolve func)) functions
  /\ (forall (i : nat) (func : AbiItem),
        functions !! i = Some func -> resolve func = None ->
        exists d, details t !! i = Some d
                  /\ d_status d = Status.partial
                  /\ migrationPath d = Some "Custom handler"
                  /\ migration_class (resolve func) = Status.partial).
Proof.
  cbv zeta. unfold estimate_tally.
  destruct (estimate_fold_spec functions
              {| supported := 0; partial := 0; unsupported := 0; details := [] |})
    as (Hs & Hp & Hu & Hd).
  pose proof (estimate_fold_path functions
                {| supported := 0; partial := 0; unsupported := 0; details := [] |})
    as Hpath.
  cbn in Hs, Hp, Hu, Hd, Hpath.
  repeat split; try assumption.
  intros i func Hi Hres.
  set (t := foldl estimate_step _ functions) in *.
  assert (Hst : map d_status (details t) !! i = Some Status.partial).
  { rewrite Hd, list_lookup_fmap, Hi. cbn. now rewrite Hres. }
  assert (Hmp : map migrationPath (details t) !! i = Some (Some "Custom handler")).
  { rewrite Hpath, list_lookup_fmap, Hi. cbn. now rewrite Hres. }
  rewrite list_lookup_fmap in Hst. rewrite list_lookup_fmap in Hmp.
  destruct (details t !! i) as [d|]; [| discriminate].
  cbn in Hst, Hmp. injection Hst as Hst. injection Hmp as Hmp.
  exists d. rewrite Hres. auto.
Qed.

(** ** Calldata decoding *)

(** [decodeCalldata] throws exactly when the prefix/length precondition is
    violated, and then with the message "Invalid calldata". *)
Lemma decodeCalldata_throws (abi : AbiDecoder) (data : option string) (message : string) :
  decodeCalldata abi data = JS.Throw message
  <-> well_formed data = false /\ message = "Invalid calldata".
Proof.
  unfold decodeCalldata, well_formed.
  destruct data as [cd|]; [|split; [intros [= <-]; auto | intros [_ ->]; reflexivity]].
  rewrite Nat.ltb_antisym, <- negb_andb.
  destruct (JS.startsWith cd "0x" && (10 <=? String.length cd)%nat); cbn.
  - split; [repeat case_match; discriminate | intros [[=] _]].
  - split; [intros [= <-]; auto | intros [_ ->]; reflexivity].
Qed.

(** C4, counterexample: "0xdeadbeef" satisfies the prefix/length
    precondition and has no registry entry, and the translate route answers
    it with the error DECODE_FAILED, status 400. *)
Lemma unknown_selector_is_an_error :
  well_formed (Some "0xdeadbeef") = true
  /\ SELECTOR_DB !! "0xdeadbeef" = None
  /\ translate_route ReferenceAbi.decode 0
       {| input := Some (Calldata (Some "0xdeadbeef")); context := None |}
     = ErrorResponse 400 "DECODE_FAILED" (Some "Unknown selector").
Proof. repeat split; vm_compute; reflexivity. Qed.

(** C4, amended: on a well-formed input whose selector has no registry
    entry [decodeCalldata] does not throw; it returns a record with the
    selector, decoded = false and the error "Unknown selector", which the
    translate route reports as the error DECODE_FAILED with status 400, the
    code a parameter-decode failure gets too. Only a violated prefix/length
    precondition makes [decodeCalldata] throw. *)
Theorem unknown_selector_decoding (abi : AbiDecoder) (now : Z) (cd : string)
    (ctx : option Context) :
  well_formed (Some cd) = true ->
  SELECTOR_DB !! JS.toLowerCase (JS.slice cd 0 10) = None ->
  decodeCalldata abi (Some cd) = JS.Return (unknown_selector (JS.toLowerCase (JS.slice cd 0 10)))
  /\ translate_route abi now {| input := Some (Calldata (Some cd)); context := ctx |}
     = ErrorResponse 400 "DECODE_FAILED" (Some "Unknown selector")
  /\ (forall data message,
        decodeCalldata abi data = JS.Throw message
        <-> well_formed data = false /\ message = "Invalid calldata").
Proof.
  intros Hwf Hnone.
  assert (Hdec : decodeCalldata abi (Some cd)
                 = JS.Return (unknown_selector (JS.toLowerCase (JS.slice cd 0 10)))).
  { unfold decodeCalldata. unfold well_formed in Hwf.
    rewrite Nat.ltb_antisym, <- negb_andb, Hwf. cbn [negb]. rewrite Hnone. reflexivity. }
  split; [exact Hdec |].
  split; [| apply decodeCalldata_throws].
  unfold translate_route, decode_input. cbn [input]. rewrite Hdec. reflexivity.
Qed.

Lemma unknown_selector_decoding_witness :
  decodeCalldata ReferenceAbi.decode (Some "0xdeadbeef")
  = JS.Return (unknown_selector (JS.toLowerCase (JS.slice "0xdeadbeef" 0 10)))
  /\ translate_route ReferenceAbi.decode 0
       {| input := Some (Calldata (Some "0xdeadbeef")); context := None |}
     = ErrorResponse 400 "DECODE_FAILED" (Some "Unknown selector")
  /\ (forall data message,
        decodeCalldata ReferenceAbi.decode data = JS.Throw message
        <-> well_formed data = false /\ message = "Invalid calldata").
Proof.
  apply (unknown_selector_decoding ReferenceAbi.decode 0 "0xdeadbeef" None);
    vm_compute; reflexivity.
Defined.

(** ** Unsupported patterns *)

(** C5: a decoded call whose registry mapping is UNSUPPORTED makes
    [translate] fail with UNSUPPORTED_PATTERN, and the result carries no
    message list; the route answers such a call with that error and
    status 422. *)
Theorem unsupported_mapping_fails (now : Z) (d : DecodedCall) (ctx : Context) (f : FuncInfo) :
  SELECTOR_DB !! selector d = Some f ->
  matchType (injectiveMapping f) = UNSUPPORTED ->
  translate now d ctx = Failure "UNSUPPORTED_PATTERN" (notes (injectiveMapping f))
  /\ (forall messages explanation metadata,
        translate now d ctx <> Success messages explanation metadata)
  /\ (forall abi i,
        decode_input abi i = inr d ->
        translate_route abi now {| input := Some i; context := Some ctx |}
        = ErrorResponse 422 "UNSUPPORTED_PATTERN" (notes (injectiveMapping f))).
Proof.
  intros Hlookup Hunsupported.
  assert (H : translate now d ctx = Failure "UNSUPPORTED_PATTERN" (notes (injectiveMapping f))).
  { unfold translate. rewrite Hlookup. cbv zeta.
    destruct (decide (matchType (injectiveMapping f) = UNSUPPORTED));
      [reflexivity | contradiction]. }
  split; [exact H |]. split.
  - intros messages explanation metadata. rewrite H. discriminate.
  - intros abi i Hdecode. unfold translate_route. cbn [input context].
    rewrite Hdecode. change (default empty_context (Some ctx)) with ctx.
    rewrite H. reflexivity.
Qed.

Lemma unsupported_mapping_fails_witness :
  translate 0 (decoded_call "0xe8e33700" addLiquidity_info []) empty_context
  = Failure "UNSUPPORTED_PATTERN" (notes (injectiveMapping addLiquidity_info))
  /\ (forall messages explanation metadata,
        translate 0 (decoded_call "0xe8e33700" addLiquidity_info []) empty_context
        <> Success messages explanation metadata)
  /\ (forall abi i,
        decode_input abi i = inr (decoded_call "0xe8e33700" addLiquidity_info []) ->
        translate_route abi 0 {| input := Some i; context := Some empty_context |}
        = ErrorResponse 422 "UNSUPPORTED_PATTERN" (notes (injectiveMapping addLiquidity_info))).
Proof.
  apply (unsupported_mapping_fails 0 (decoded_call "0xe8e33700" addLiquidity_info [])
           empty_context addLiquidity_info); vm_compute; reflexivity.
Defined.

(** The route on the bare addLiquidity selector. *)
Example addLiquidity_calldata_rejected :
  translate_route ReferenceAbi.decode 0
    {| input := Some (Calldata (Some "0xe8e33700")); context := None |}
  = ErrorResponse 422 "UNSUPPORTED_PATTERN"
      (Some "Injective uses orderbook, not AMM. Consider market making.").
Proof. vm_compute. reflexivity. Qed.

(** ** Actor addresses *)

(** C6: on a [transferFrom] call decoded with a [from] and a [to] parameter,
    under a context that names a sender and a recipient, [translate] takes
    both addresses of the message from the decoded parameters, not from the
    context. *)
Theorem transferFrom_prefers_decoded_parameters (now : Z) :
  translate now transferFrom_call both_addresses
  = Success
      [ MsgSend "0x1111111111111111111111111111111111111111"
          (Some "0x2222222222222222222222222222222222222222")
          [ {| coin_denom := "inj"; coin_amount := Some "5" |} ] ]
      "Transfer from authorized account"
      {| md_confidence := 0.80%Q; md_matchType := SEMANTIC;
         warnings := ["Requires authz grant check"];
         originalFunction := "transferFrom(address,address,uint256)" |}.
Proof. vm_compute. reflexivity. Qed.

(** The sibling rule for [transfer] under the same context and the same
    decoded [to]: the context's recipient wins. *)
Lemma transfer_prefers_context (now : Z) :
  translate now
    (decoded_call "0xa9059cbb" transfer_info
       [ {| p_name := "to"; p_type := Some "address";
            p_value := "0x2222222222222222222222222222222222222222" |};
         {| p_name := "amount"; p_type := Some "uint256"; p_value := "5" |} ])
    both_addresses
  = Success
      [ MsgSend "inj1sender" (Some "inj1recipient")
          [ {| coin_denom := "inj"; coin_amount := Some "5" |} ] ]
      "Transfer 5 tokens"
      {| md_confidence := 0.98%Q; md_matchType := DIRECT; warnings := [];
         originalFunction := "transfer(address,uint256)" |}.
Proof. vm_compute. reflexivity. Qed.

(** ** Dependence on the clock *)

(** C7: the same [approve] intent translated at two instants one
    millisecond apart gives two different responses: the MsgGrant carries
    an expiration computed from the clock. *)
Theorem approve_translation_reads_clock (abi : AbiDecoder) :
  translate_route abi 0 approve_request
  = TranslationResponse
      [ MsgGrant "inj1sender" "inj1spender"
          [ {| coin_denom := "inj"; coin_amount := Some "1000" |} ]
          "1971-01-01T00:00:00.000Z" ]
      "Grant spending authorization"
      {| md_confidence := 0.85%Q; md_matchType := SEMANTIC;
         warnings := ["Injective uses authz module instead of per-token approvals"];
         originalFunction := "approve(address,uint256)" |}
      gas_estimate
  /\ translate_route abi 1 approve_request
     = TranslationResponse
         [ MsgGrant "inj1sender" "inj1spender"
             [ {| coin_denom := "inj"; coin_amount := Some "1000" |} ]
             "1971-01-01T00:00:00.001Z" ]
         "Grant spending authorization"
         {| md_confidence := 0.85%Q; md_matchType := SEMANTIC;
            warnings := ["Injective uses authz module instead of per-token approvals"];
            originalFunction := "approve(address,uint256)" |}
         gas_estimate
  /\ translate_route abi 0 approve_request <> translate_route abi 1 approve_request.
Proof.
  repeat split; try (vm_compute; reflexivity).
  vm_compute. discriminate.
Qed.

(** Every other construction rule ignores the clock. *)
Lemma translate_clock_independent (now1 now2 : Z) (d : DecodedCall) (ctx : Context) :
  (forall f, SELECTOR_DB !! selector d = Some f -> name f <> "approve") ->
  translate now1 d ctx = translate now2 d ctx.
Proof.
  intros Hname. unfold translate.
  destruct (SELECTOR_DB !! selector d) as [f|]; [|reflexivity].
  specialize (Hname f eq_refl). cbv zeta.
  destruct (decide _); [reflexivity |].
  unfold build_messages.
  destruct (String.eqb_spec (name f) "transfer"); [reflexivity |].
  destruct (String.eqb_spec (name f) "approve"); [contradiction |].
  reflexivity.
Qed.

(** ** Calldata that is a bare selector *)

Lemma substring_whole (s : string) : String.substring 0 (String.length s) s = s.
Proof. induction s as [|c s IH]; cbn; [reflexivity | now rewrite IH]. Qed.

Lemma substring_none (s : string) (n : nat) : String.substring n 0 s = "".
Proof.
  revert n. induction s as [|c s IH]; intros [|n]; cbn; try reflexivity. apply IH.
Qed.

(** Each of the eight names has a case in the [switch]. *)
Lemma build_messages_defined (now : Z) (fname sender : string) (ctx : Context)
    (params : gmap string string) :
  In fname builder_names -> is_Some (build_messages now fname sender ctx params).
Proof.
  intros Hin. cbn in Hin.
  repeat (destruct Hin as [<- | Hin]; [eexists; reflexivity |]). contradiction.
Qed.

(** With no decoded parameter every [params.x] read is undefined. *)
Lemma build_messages_no_params (now : Z) (fname sender : string) (ctx : Context)
    (messages : list Message) (explanation : string) :
  build_messages now fname sender ctx ∅ = Some (messages, explanation) ->
  messages <> []
  /\ (In fname amount_from_params ->
      Forall (fun m => Forall (fun a => a = None) (amount_of m)) messages).
Proof.
  unfold build_messages. rewrite !lookup_empty.
  repeat match goal with
         | |- context [String.eqb fname ?s] =>
             destruct (String.eqb_spec fname s) as [-> | ?];
             [intros [= <- <-]; split; [discriminate |];
              intros Hin; try (repeat constructor; fail);
              cbn in Hin; intuition discriminate |]
         end.
  discriminate.
Qed.

(** Translating a registered, supported call that carries no parameter. *)
Lemma translate_without_parameters (k : string) (f : FuncInfo) :
  SELECTOR_DB !! k = Some f -> translates_without_parameters k f.
Proof.
  intros Hlookup now ctx Hsupported.
  assert (Hname : In (name f) builder_names \/ matchType (injectiveMapping f) = UNSUPPORTED).
  { clear Hsupported. revert k f Hlookup. each_entry; cbn; tauto. }
  destruct Hname as [Hname | ?]; [| contradiction].
  unfold translate. cbn [selector decoded_call]. rewrite Hlookup. cbv zeta.
  destruct (decide _); [contradiction |].
  change (collect_params (decoded_call k f [])) with (∅ : gmap string string).
  destruct (build_messages_defined now (name f) (JS.or_lit (senderAddress ctx) "inj1xxx")
              ctx ∅ Hname) as [[messages explanation] Hbuild].
  rewrite Hbuild. eexists _, _, _. split; [reflexivity |].
  exact (build_messages_no_params _ _ _ _ _ _ Hbuild).
Qed.

(** C10: calldata that is exactly a registered selector decodes with
    decoded = true and an empty parameter list, whatever the entry's
    parameter types and without consulting the ABI decoder; translating the
    result of a supported entry succeeds with at least one message, and
    where the rule reads the amount from the parameters the amount of every
    message is absent. *)
Theorem bare_selector_decodes (abi : AbiDecoder) (now : Z) (cd : string) (f : FuncInfo)
    (ctx : Context) :
  JS.startsWith cd "0x" = true ->
  String.length cd = 10%nat ->
  SELECTOR_DB !! JS.toLowerCase cd = Some f ->
  decodeCalldata abi (Some cd) = JS.Return (decoded_call (JS.toLowerCase cd) f [])
  /\ decoded (decoded_call (JS.toLowerCase cd) f []) = true
  /\ parameters (decoded_call (JS.toLowerCase cd) f []) = Some []
  /\ error (decoded_call (JS.toLowerCase cd) f []) = None
  /\ (matchType (injectiveMapping f) <> UNSUPPORTED ->
      exists messages explanation metadata,
        translate now (decoded_call (JS.toLowerCase cd) f []) ctx
        = Success messages explanation metadata
        /\ messages <> []
        /\ (In (name f) amount_from_params ->
            Forall (fun m => Forall (fun a => a = None) (amount_of m)) messages)).
Proof.
  intros Hprefix Hlen Hlookup.
  split; [| repeat split; try reflexivity;
            intros Hs; exact (translate_without_parameters _ f Hlookup now ctx Hs)].
  assert (Hslice : JS.slice cd 0 10 = cd).
  { unfold JS.slice. cbn [Nat.sub]. rewrite <- Hlen. apply substring_whole. }
  assert (Hrest : JS.slice_from cd 10 = "").
  { unfold JS.slice_from. rewrite Hlen. apply substring_none. }
  unfold decodeCalldata.
  rewrite Hprefix, Hlen, Hslice, Hrest, Hlookup. cbn [negb orb Nat.ltb Nat.leb].
  cbn [String.length append]. rewrite andb_false_r. reflexivity.
Qed.

Lemma bare_selector_decodes_witness :
  decodeCalldata ReferenceAbi.decode (Some "0xA9059CBB")
  = JS.Return (decoded_call (JS.toLowerCase "0xA9059CBB") transfer_info [])
  /\ decoded (decoded_call (JS.toLowerCase "0xA9059CBB") transfer_info []) = true
  /\ parameters (decoded_call (JS.toLowerCase "0xA9059CBB") transfer_info []) = Some []
  /\ error (decoded_call (JS.toLowerCase "0xA9059CBB") transfer_info []) = None
  /\ (matchType (injectiveMapping transfer_info) <> UNSUPPORTED ->
      exists messages explanation metadata,
        translate 0 (decoded_call (JS.toLowerCase "0xA9059CBB") transfer_info []) both_addresses
        = Success messages explanation metadata
        /\ messages <> []
        /\ (In (name transfer_info) amount_from_params ->
            Forall (fun m => Forall (fun a => a = None) (amount_of m)) messages)).
Proof.
  apply (bare_selector_decodes ReferenceAbi.decode 0 "0xA9059CBB" transfer_info
           both_addresses); vm_compute; reflexivity.
Defined.

(** The same input evaluated: the MsgSend for a bare [transfer] selector has
    no amount, and the explanation interpolates [undefined]. *)
Example bare_transfer_selector :
  paramTypes transfer_info = ["address"; "uint256"]
  /\ translate_route ReferenceAbi.decode 0
       {| input := Some (Calldata (Some "0xA9059CBB")); context := Some both_addresses |}
     = TranslationResponse
         [ MsgSend "inj1sender" (Some "inj1recipient")
             [ {| coin_denom := "inj"; coin_amount := None |} ] ]
         "Transfer undefined tokens"
         {| md_confidence := 0.98%Q; md_matchType := DIRECT; warnings := [];
            originalFunction := "transfer(address,uint256)" |}
         gas_estimate.
Proof. split; vm_compute; reflexivity. Qed.

(** * Further properties of the code *)

(** ** The registry, continued *)

Lemma registry_lookup_listed (k : string) (f : FuncInfo) :
  SELECTOR_DB !! k = Some f <-> In (k, f) SELECTOR_ENTRIES.
Proof.
  split.
  - intros H. apply elem_of_list_to_map_2 in H. now apply list_elem_of_In.
  - intros H. apply elem_of_list_to_map_1.
    + apply NoDup_ListNoDup. vm_compute.
      repeat (constructor; [cbn; intuition discriminate |]). constructor.
    + now apply list_elem_of_In.
Qed.

(** X1: Every entry's parameter names and types line up, and its key is a
    lowercase ten-character selector, the only form [decodeCalldata] looks up. *)
Theorem registry_well_formed (k : string) (f : FuncInfo) :
  SELECTOR_DB !! k = Some f ->
  length (paramNames f) = length (paramTypes f)
  /\ String.length k = 10%nat
  /\ JS.startsWith k "0x" = true
  /\ JS.toLowerCase k = k.
Proof. revert k f. each_entry; repeat split; reflexivity. Qed.

Lemma registry_well_formed_witness :
  length (paramNames flashLoan_info) = length (paramTypes flashLoan_info)
  /\ String.length "0xab9c4b5d" = 10%nat
  /\ JS.startsWith "0xab9c4b5d" "0x" = true
  /\ JS.toLowerCase "0xab9c4b5d" = "0xab9c4b5d".
Proof.
  apply (registry_well_formed "0xab9c4b5d" flashLoan_info). vm_compute. reflexivity.
Defined.

(** X2: Describing a registry entry as an ABI function (its name and parameter
    types) and resolving that description gives the entry back. *)
Theorem registry_resolves_own_abi (k : string) (f : FuncInfo) :
  SELECTOR_DB !! k = Some f ->
  signature_of (abi_item_of f) = signature f /\ resolve (abi_item_of f) = Some f.
Proof. revert k f. each_entry; split; vm_compute; reflexivity. Qed.

Lemma registry_resolves_own_abi_witness :
  signature_of (abi_item_of swapExactETHForTokens_info)
  = signature swapExactETHForTokens_info
  /\ resolve (abi_item_of swapExactETHForTokens_info) = Some swapExactETHForTokens_info.
Proof.
  apply (registry_resolves_own_abi "0x7ff36ab5" swapExactETHForTokens_info).
  vm_compute. reflexivity.
Defined.

(** X3: The function name identifies the entry: the [switch] on [funcInfo.name]
    never confuses two entries. *)
Theorem registry_names_distinct (k1 k2 : string) (f1 f2 : FuncInfo) :
  SELECTOR_DB !! k1 = Some f1 ->
  SELECTOR_DB !! k2 = Some f2 ->
  name f1 = name f2 ->
  k1 = k2 /\ f1 = f2.
Proof.
  rewrite !registry_lookup_listed. unfold SELECTOR_ENTRIES. cbn [In].
  intros H1 H2.
  repeat (destruct H1 as [[= <- <-] | H1]); try contradiction;
    repeat (destruct H2 as [[= <- <-] | H2]); try contradiction;
    intros Hname; try (split; reflexivity); cbn in Hname; discriminate.
Qed.

Lemma registry_names_distinct_witness :
  "0xa694fc3a" = "0xa694fc3a" /\ stake_info = stake_info.
Proof.
  apply (registry_names_distinct "0xa694fc3a" "0xa694fc3a" stake_info stake_info);
    vm_compute; reflexivity.
Defined.

(** ** The translation engine, continued *)

(** Every entry is UNSUPPORTED or has a case in the [switch]. *)
Lemma registry_builder_coverage (k : string) (f : FuncInfo) :
  SELECTOR_DB !! k = Some f ->
  In (name f) builder_names \/ matchType (injectiveMapping f) = UNSUPPORTED.
Proof. revert k f. each_entry; cbn; tauto. Qed.

(** No entry has an empty note, so a note is always reported as a warning. *)
Lemma registry_notes (k : string) (f : FuncInfo) :
  SELECTOR_DB !! k = Some f ->
  (if JS.truthy (notes (injectiveMapping f))
   then [JS.interpolate (notes (injectiveMapping f))] else [])
  = warnings (metadata_of f).
Proof. revert k f. each_entry; reflexivity. Qed.

(** What [translate] does on a registered, supported entry: it runs the
    entry's case of the [switch] and attaches the entry's metadata. *)
Lemma translate_registered (now : Z) (d : DecodedCall) (ctx : Context) (f : FuncInfo) :
  SELECTOR_DB !! selector d = Some f ->
  matchType (injectiveMapping f) <> UNSUPPORTED ->
  exists messages explanation,
    build_messages now (name f) (JS.or_lit (senderAddress ctx) "inj1xxx") ctx
      (collect_params d) = Some (messages, explanation)
    /\ translate now d ctx = Success messages explanation (metadata_of f).
Proof.
  intros Hlookup Hsupported.
  destruct (registry_builder_coverage _ _ Hlookup) as [Hname | ?]; [| contradiction].
  destruct (build_messages_defined now (name f) (JS.or_lit (senderAddress ctx) "inj1xxx")
              ctx (collect_params d) Hname) as [[messages explanation] Hbuild].
  exists messages, explanation. split; [exact Hbuild |].
  unfold translate. rewrite Hlookup. cbv zeta.
  destruct (decide _); [contradiction |].
  rewrite Hbuild, (registry_notes _ _ Hlookup). reflexivity.
Qed.

Ltac each_entry_of P :=
  refine (registry_ind P _); unfold SELECTOR_ENTRIES;
  repeat (apply List.Forall_cons; [cbn [fst snd] |]); [.. | exact (List.Forall_nil _)].

(** Runs the [switch] of [build_messages] in hypothesis [H] on the concrete
    function name of the entry at hand. *)
Ltac run_switch H :=
  match type of H with
  | context [build_messages _ (name ?f) _ _ _] =>
      let n := eval vm_compute in (name f) in change (name f) with n in H
  end;
  unfold build_messages in H;
  repeat match type of H with
         | context [String.eqb ?a ?b] =>
             let v := eval vm_compute in (String.eqb a b) in
             change (String.eqb a b) with v in H
         end;
  cbv beta iota in H.

(** The messages a case of the [switch] builds have the types the entry's
    mapping names, in order. *)
Lemma build_messages_types (k : string) (f : FuncInfo) :
  SELECTOR_DB !! k = Some f ->
  forall now sender ctx params messages explanation,
    build_messages now (name f) sender ctx params = Some (messages, explanation) ->
    map msg_type messages = target_types (injectiveMapping f).
Proof.
  revert k f.
  each_entry_of (fun (_ : string) f =>
    forall now sender ctx params messages explanation,
      build_messages now (name f) sender ctx params = Some (messages, explanation) ->
      map msg_type messages = target_types (injectiveMapping f));
    intros now sender ctx params messages explanation H;
    run_switch H; first [discriminate | injection H as <- <-; reflexivity].
Qed.

(** The amount of the one message built by a rule that copies
    [params.amount]. *)
Lemma build_messages_amount (k : string) (f : FuncInfo) :
  SELECTOR_DB !! k = Some f ->
  forall now sender ctx params messages explanation,
    In (name f) amount_names ->
    build_messages now (name f) sender ctx params = Some (messages, explanation) ->
    exists m, messages = [m] /\ amount_of m = [params !! "amount"].
Proof.
  revert k f.
  each_entry_of (fun (_ : string) f =>
    forall now sender ctx params messages explanation,
      In (name f) amount_names ->
      build_messages now (name f) sender ctx params = Some (messages, explanation) ->
      exists m, messages = [m] /\ amount_of m = [params !! "amount"]);
    intros now sender ctx params messages explanation Hin H;
    try (cbn in Hin; exfalso; intuition discriminate);
    run_switch H; injection H as <- <-; eexists; split; reflexivity.
Qed.

(** [collect_params]: the value stored under a name is that of the last
    parameter with this name. *)
Lemma foldl_params_lookup (ps : list Param) (m0 : gmap string string) (n : string) :
  foldl (fun params p => <[p_name p := p_value p]> params) m0 ps !! n
  = match last (filter (fun p => p_name p = n) ps) with
    | Some p => Some (p_value p)
    | None => m0 !! n
    end.
Proof.
  revert m0. induction ps as [|p ps IH]; intros m0; [reflexivity |].
  cbn [foldl]. rewrite IH, filter_cons.
  destruct (decide (p_name p = n)) as [Heq | Hne].
  - rewrite last_cons. destruct (last _); [reflexivity |].
    rewrite <- Heq. apply lookup_insert_eq.
  - destruct (last _); [reflexivity |]. now apply lookup_insert_ne.
Qed.

Lemma collect_params_lookup (d : DecodedCall) (n : string) :
  collect_params d !! n = last_param n d.
Proof.
  unfold collect_params, last_param. rewrite foldl_params_lookup.
  destruct (last _); [reflexivity | apply lookup_empty].
Qed.

(** X4: [translate] never reports NO_BUILDER: every registry entry that is not
    UNSUPPORTED has a construction rule. *)
Theorem translate_never_no_builder (now : Z) (d : DecodedCall) (ctx : Context)
    (message : option string) :
  translate now d ctx <> Failure "NO_BUILDER" message.
Proof.
  destruct (SELECTOR_DB !! selector d) as [f|] eqn:Hlookup.
  - destruct (decide (matchType (injectiveMapping f) = UNSUPPORTED)) as [Hu | Hs].
    + unfold translate. rewrite Hlookup. cbv zeta.
      destruct (decide _); [discriminate | contradiction].
    + destruct (translate_registered now d ctx f Hlookup Hs) as (ms & e & _ & ->).
      discriminate.
  - unfold translate. rewrite Hlookup. discriminate.
Qed.

(** X5: The three outcomes of [translate], by the registry alone: an
    unregistered selector fails with UNSUPPORTED, an UNSUPPORTED entry with
    UNSUPPORTED_PATTERN and its note, and every other entry succeeds with
    the entry's confidence, match type, note (as the warning) and signature
    in the metadata. *)
Theorem translate_outcome (now : Z) (d : DecodedCall) (ctx : Context) :
  match SELECTOR_DB !! selector d with
  | None => translate now d ctx = Failure "UNSUPPORTED" (Some "Function not supported")
  | Some f =>
      match matchType (injectiveMapping f) with
      | UNSUPPORTED =>
          translate now d ctx = Failure "UNSUPPORTED_PATTERN" (notes (injectiveMapping f))
      | _ =>
          exists messages explanation,
            translate now d ctx = Success messages explanation (metadata_of f)
      end
  end.
Proof.
  destruct (SELECTOR_DB !! selector d) as [f|] eqn:Hlookup.
  - destruct (matchType (injectiveMapping f)) eqn:Hm;
      try (destruct (translate_registered now d ctx f Hlookup) as (ms & e & _ & H);
           [rewrite Hm; discriminate | eauto]).
    unfold translate. rewrite Hlookup. cbv zeta. rewrite Hm. reflexivity.
  - unfold translate. rewrite Hlookup. reflexivity.
Qed.

(** X6: The messages of a successful translation have exactly the types the
    registry entry names, in order: one message of the entry's [msgType],
    or one message per step of a COMPOSITE entry. *)
Theorem translate_message_types (now : Z) (d : DecodedCall) (ctx : Context) (f : FuncInfo)
    (messages : list Message) (explanation : string) (metadata : Metadata) :
  SELECTOR_DB !! selector d = Some f ->
  translate now d ctx = Success messages explanation metadata ->
  map msg_type messages = target_types (injectiveMapping f).
Proof.
  intros Hlookup Hsuccess.
  assert (Hs : matchType (injectiveMapping f) <> UNSUPPORTED).
  { intros Hu. unfold translate in Hsuccess. rewrite Hlookup in Hsuccess.
    cbv zeta in Hsuccess. destruct (decide _); [discriminate | contradiction]. }
  destruct (translate_registered now d ctx f Hlookup Hs) as (ms & e & Hbuild & H).
  rewrite H in Hsuccess. injection Hsuccess as <- <- <-.
  exact (build_messages_types _ f Hlookup _ _ _ _ _ _ Hbuild).
Qed.

Lemma translate_message_types_witness :
  map msg_type
    [ MsgDeposit "inj1xxx" (getSubaccountId "inj1xxx")
        {| coin_denom := "inj"; coin_amount := Some "0" |};
      MsgCreateSpotMarketOrder "inj1xxx" market_id (getSubaccountId "inj1xxx") "inj1xxx" "0"
        (Some "0") 2 "0" ]
  = target_types (injectiveMapping swapExactETHForTokens_info).
Proof.
  apply (translate_message_types 0 (decoded_call "0x7ff36ab5" swapExactETHForTokens_info [])
           empty_context swapExactETHForTokens_info _ "Deposit then swap (2-step)"
           (metadata_of swapExactETHForTokens_info)); vm_compute; reflexivity.
Defined.

(** X7: The amount is copied through unchanged: for transfer, approve,
    transferFrom, stake and withdraw a successful translation has one
    message, whose amount is the value of the last decoded parameter named
    "amount", or is absent when there is none. *)
Theorem translate_amount_unchanged (now : Z) (d : DecodedCall) (ctx : Context) (f : FuncInfo)
    (messages : list Message) (explanation : string) (metadata : Metadata) :
  SELECTOR_DB !! selector d = Some f ->
  In (name f) amount_names ->
  translate now d ctx = Success messages explanation metadata ->
  exists m, messages = [m] /\ amount_of m = [last_param "amount" d].
Proof.
  intros Hlookup Hin Hsuccess.
  assert (Hs : matchType (injectiveMapping f) <> UNSUPPORTED).
  { intros Hu. unfold translate in Hsuccess. rewrite Hlookup in Hsuccess.
    cbv zeta in Hsuccess. destruct (decide _); [discriminate | contradiction]. }
  destruct (translate_registered now d ctx f Hlookup Hs) as (ms & e & Hbuild & H).
  rewrite H in Hsuccess. injection Hsuccess as <- <- <-.
  rewrite <- collect_params_lookup.
  exact (build_messages_amount _ f Hlookup _ _ _ _ _ _ Hin Hbuild).
Qed.

Lemma translate_amount_unchanged_witness :
  exists m,
    [ MsgSend "inj1sender" (Some "inj1recipient")
        [ {| coin_denom := "inj"; coin_amount := Some "5" |} ] ] = [m]
    /\ amount_of m = [last_param "amount" transfer_call].
Proof.
  apply (translate_amount_unchanged 0 transfer_call both_addresses transfer_info _
           "Transfer 5 tokens" (metadata_of transfer_info));
    [vm_compute; reflexivity | cbn; tauto | vm_compute; reflexivity].
Defined.

(** ** Calldata decoding, continued *)

Lemma length_substring_prefix (n : nat) (s : string) :
  (n <= String.length s)%nat -> String.length (String.substring 0 n s) = n.
Proof.
  revert s. induction n as [|n IH]; intros [|c s] Hle; cbn in *; try reflexivity; try lia.
  rewrite IH; [reflexivity | lia].
Qed.

Lemma length_toLowerCase (s : string) : String.length (JS.toLowerCase s) = String.length s.
Proof. induction s as [|c s IH]; cbn; [reflexivity | now rewrite IH]. Qed.

Lemma lower_char_idempotent (c : ascii) : JS.lower_char (JS.lower_char c) = JS.lower_char c.
Proof. destruct c as [[] [] [] [] [] [] [] []]; reflexivity. Qed.

Lemma toLowerCase_idempotent (s : string) : JS.toLowerCase (JS.toLowerCase s) = JS.toLowerCase s.
Proof.
  induction s as [|c s IH]; cbn; [reflexivity |]. now rewrite lower_char_idempotent, IH.
Qed.

Lemma startsWith_0x (s : string) :
  JS.startsWith s "0x" = true -> exists rest, s = String "0" (String "x" rest).
Proof.
  unfold JS.startsWith. rewrite String.prefix_correct.
  destruct s as [|a [|b rest]]; cbn; try discriminate.
  intros [= -> -> _]. eauto.
Qed.

(** The selector [decodeCalldata] computes from well-formed calldata. *)
Lemma selector_shape (cd : string) :
  well_formed (Some cd) = true ->
  let sel := JS.toLowerCase (JS.slice cd 0 10) in
  String.length sel = 10%nat /\ JS.startsWith sel "0x" = true /\ JS.toLowerCase sel = sel.
Proof.
  cbv zeta. unfold well_formed. intros [Hprefix Hlen]%andb_true_iff.
  apply Nat.leb_le in Hlen.
  repeat split.
  - rewrite length_toLowerCase. now apply length_substring_prefix.
  - destruct (startsWith_0x _ Hprefix) as [rest ->].
    unfold JS.startsWith. rewrite String.prefix_correct. cbn.
    destruct (String.substring 0 8 rest); reflexivity.
  - apply toLowerCase_idempotent.
Qed.

(** The record [decodeCalldata] returns, whichever way it returns. *)
Lemma decodeCalldata_returns (abi : AbiDecoder) (data : option string) (d : DecodedCall) :
  decodeCalldata abi data = JS.Return d ->
  exists cd, data = Some cd /\ well_formed data = true
    /\ selector d = JS.toLowerCase (JS.slice cd 0 10).
Proof.
  unfold decodeCalldata, well_formed. destruct data as [cd|]; [| discriminate].
  rewrite Nat.ltb_antisym, <- negb_andb.
  destruct (JS.startsWith cd "0x" && (10 <=? String.length cd)%nat); [| discriminate].
  cbn [negb]. intros H. exists cd. split; [reflexivity |]. split; [reflexivity |].
  repeat case_match; injection H as <-; reflexivity.
Qed.

Lemma lower_char_ascii (c : ascii) :
  (nat_of_ascii c < 128)%nat -> (nat_of_ascii (JS.lower_char c) < 128)%nat.
Proof.
  intros Hc. unfold JS.lower_char.
  destruct ((65 <=? nat_of_ascii c)%nat && (nat_of_ascii c <=? 90)%nat) eqn:Hupper;
    [| exact Hc].
  apply andb_true_iff in Hupper as [_ Hle%Nat.leb_le].
  rewrite nat_ascii_embedding; lia.
Qed.

Lemma ascii_text_toLowerCase (s : string) :
  ascii_text s = true -> ascii_text (JS.toLowerCase s) = true.
Proof.
  induction s as [|c s IH]; [reflexivity |]. cbn [ascii_text JS.toLowerCase].
  intros [Hc Hs]%andb_true_iff. apply andb_true_iff. split; [| exact (IH Hs)].
  apply Nat.ltb_lt, lower_char_ascii, Nat.ltb_lt, Hc.
Qed.

Lemma ascii_text_substring (s : string) (n m : nat) :
  ascii_text s = true -> ascii_text (String.substring n m s) = true.
Proof.
  revert n m. induction s as [|c s IH]; intros n m; [destruct n, m; reflexivity |].
  cbn [ascii_text]. intros [Hc Hs]%andb_true_iff.
  destruct n as [|n]; [destruct m as [|m] | ]; cbn [String.substring ascii_text];
    [reflexivity | | exact (IH n m Hs)].
  rewrite Hc. exact (IH 0%nat m Hs).
Qed.

(** X8: On calldata made of ASCII characters, whatever [decodeCalldata]
    returns carries as its selector the first ten characters of the calldata
    in lower case: ten ASCII characters, of which the first two are "0x". *)
Theorem decodeCalldata_selector_shape (abi : AbiDecoder) (cd : string) (d : DecodedCall) :
  ascii_text cd = true ->
  decodeCalldata abi (Some cd) = JS.Return d ->
  selector d = JS.toLowerCase (JS.slice cd 0 10)
  /\ ascii_text (selector d) = true
  /\ String.length (selector d) = 10%nat
  /\ JS.startsWith (selector d) "0x" = true
  /\ JS.toLowerCase (selector d) = selector d.
Proof.
  intros Hascii H.
  destruct (decodeCalldata_returns abi (Some cd) d H) as (cd' & [= <-] & Hwf & ->).
  split; [reflexivity |]. split; [| exact (selector_shape cd Hwf)].
  apply ascii_text_toLowerCase, ascii_text_substring, Hascii.
Qed.

Lemma decodeCalldata_selector_shape_witness :
  selector (unknown_selector "0xdeadbeef") = JS.toLowerCase (JS.slice "0xDEADBEEF00" 0 10)
  /\ ascii_text (selector (unknown_selector "0xdeadbeef")) = true
  /\ String.length (selector (unknown_selector "0xdeadbeef")) = 10%nat
  /\ JS.startsWith (selector (unknown_selector "0xdeadbeef")) "0x" = true
  /\ JS.toLowerCase (selector (unknown_selector "0xdeadbeef"))
     = selector (unknown_selector "0xdeadbeef").
Proof.
  apply (decodeCalldata_selector_shape ReferenceAbi.decode "0xDEADBEEF00");
    vm_compute; reflexivity.
Defined.

(** [named_params]: one record per name, in order, each with the type and
    the decoded value at its index. *)
Lemma named_params_spec (names types values : list string) (i : nat) (ps : list Param) :
  named_params names i types values = Some ps ->
  map p_name ps = names
  /\ map p_type ps = map (fun j => types !! j) (seq i (length names))
  /\ map (fun p => Some (p_value p)) ps = map (fun j => values !! j) (seq i (length names)).
Proof.
  revert i ps. induction names as [|n names IH]; intros i ps; cbn.
  - intros [= <-]. auto.
  - destruct (values !! i) as [v|] eqn:Hv; [| discriminate].
    destruct (named_params names (S i) types values) as [ps'|] eqn:Hps; [| discriminate].
    cbn. intros [= <-]. destruct (IH _ _ Hps) as (Hn & Ht & Hvs).
    cbn. rewrite Hn, Ht, Hvs. auto.
Qed.

Lemma lookup_all_indices (l : list string) :
  map (fun j => l !! j) (seq 0 (length l)) = map Some l.
Proof.
  induction l as [|x l IH] using rev_ind; [reflexivity |].
  rewrite length_app, Nat.add_comm. cbn [length Nat.add].
  rewrite seq_S, !map_app. cbn [map Nat.add]. f_equal.
  - rewrite <- IH. apply map_ext_in. intros j Hj%in_seq.
    apply lookup_app_l. lia.
  - f_equal. rewrite lookup_app_r, Nat.sub_diag; [reflexivity | lia].
Qed.

Lemma registry_lengths (k : string) (f : FuncInfo) :
  SELECTOR_DB !! k = Some f -> length (paramNames f) = length (paramTypes f).
Proof. revert k f. each_entry; reflexivity. Qed.

(** X9: A call that [decodeCalldata] returns with decoded = true is a call to a
    registered function: name, signature and category are the entry's, no
    error is set, and the parameters are either none or one per parameter of
    the entry, carrying the entry's names and types in order. *)
Theorem decodeCalldata_decoded_shape (abi : AbiDecoder) (data : option string)
    (d : DecodedCall) :
  decodeCalldata abi data = JS.Return d ->
  decoded d = true ->
  exists f ps,
    SELECTOR_DB !! selector d = Some f
    /\ d = decoded_call (selector d) f ps
    /\ (ps = []
        \/ (map p_name ps = paramNames f /\ map p_type ps = map Some (paramTypes f))).
Proof.
  intros H Hdecoded.
  destruct (decodeCalldata_returns abi data d H) as (cd & -> & Hwf & Hsel).
  unfold decodeCalldata in H. unfold well_formed in Hwf.
  rewrite Nat.ltb_antisym, <- negb_andb, Hwf in H. cbn [negb] in H.
  rewrite Hsel. set (sel := JS.toLowerCase (JS.slice cd 0 10)) in *.
  destruct (SELECTOR_DB !! sel) as [f|] eqn:Hlookup;
    [| injection H as <-; discriminate Hdecoded].
  exists f.
  destruct (_ && _) in H; [| exists []; injection H as <-; auto].
  destruct (abi _ _) as [message | values]; [injection H as <-; discriminate Hdecoded |].
  destruct (named_params _ _ _ _) as [ps|] eqn:Hps;
    [| injection H as <-; discriminate Hdecoded].
  exists ps. injection H as <-. repeat split; try reflexivity.
  right. destruct (named_params_spec _ _ _ _ _ Hps) as (Hn & Ht & _).
  split; [exact Hn |]. rewrite Ht.
  rewrite (registry_lengths _ _ Hlookup). apply lookup_all_indices.
Qed.
Lemma decodeCalldata_decoded_shape_witness :
  exists f ps,
    SELECTOR_DB !! selector stake_call = Some f
    /\ stake_call = decoded_call (selector stake_call) f ps
    /\ (ps = []
        \/ (map p_name ps = paramNames f /\ map p_type ps = map Some (paramTypes f))).
Proof.
  apply (decodeCalldata_decoded_shape ReferenceAbi.decode (Some stake_calldata) stake_call);
    vm_compute; reflexivity.
Defined.

Lemma length_substring (s : string) (n m : nat) :
  (n + m <= String.length s)%nat -> String.length (String.substring n m s) = m.
Proof.
  revert n m. induction s as [|c s IH]; intros [|n] [|m] Hle; cbn in *;
    try reflexivity; try lia.
  - rewrite (IH 0%nat m); [reflexivity | lia].
  - apply IH. lia.
  - apply IH. lia.
Qed.

Lemma length_append (a b : string) :
  String.length (a ++ b) = (String.length a + String.length b)%nat.
Proof. induction a as [|c a IH]; simpl; [reflexivity | f_equal; exact IH]. Qed.

(** X10: A failure of the ABI decoder is not swallowed: its message is the
    error of the returned record and of the route's DECODE_FAILED response. *)
Theorem decoder_failure_reported (abi : AbiDecoder) (now : Z) (cd : string)
    (ctx : option Context) (f : FuncInfo) (message : string) :
  well_formed (Some cd) = true ->
  SELECTOR_DB !! JS.toLowerCase (JS.slice cd 0 10) = Some f ->
  paramTypes f <> [] ->
  (10 < String.length cd)%nat ->
  abi (paramTypes f) ("0x" ++ JS.slice_from cd 10) = inl message ->
  decodeCalldata abi (Some cd)
  = JS.Return (decode_failure (JS.toLowerCase (JS.slice cd 0 10)) f message)
  /\ translate_route abi now {| input := Some (Calldata (Some cd)); context := ctx |}
     = ErrorResponse 400 "DECODE_FAILED" (Some message).
Proof.
  intros Hwf Hlookup Htypes Hlen Habi.
  assert (Hdec : decodeCalldata abi (Some cd)
                 = JS.Return (decode_failure (JS.toLowerCase (JS.slice cd 0 10)) f message)).
  { unfold decodeCalldata. unfold well_formed in Hwf.
    rewrite Nat.ltb_antisym, <- negb_andb, Hwf. cbn [negb]. rewrite Hlookup.
    assert (Hdata : (2 <? String.length ("0x" ++ JS.slice_from cd 10))%nat = true).
    { rewrite length_append. unfold JS.slice_from.
      rewrite length_substring by lia. apply Nat.ltb_lt. cbn [String.length]. lia. }
    rewrite Hdata, Habi.
    destruct (paramTypes f); [contradiction | reflexivity]. }
  split; [exact Hdec |].
  unfold translate_route, decode_input. cbn [input]. rewrite Hdec. reflexivity.
Qed.

Lemma decoder_failure_reported_witness :
  decodeCalldata ReferenceAbi.decode (Some "0xa694fc3a00")
  = JS.Return (decode_failure (JS.toLowerCase (JS.slice "0xa694fc3a00" 0 10)) stake_info
                 "data out-of-bounds")
  /\ translate_route ReferenceAbi.decode 0
       {| input := Some (Calldata (Some "0xa694fc3a00")); context := None |}
     = ErrorResponse 400 "DECODE_FAILED" (Some "data out-of-bounds").
Proof.
  apply (decoder_failure_reported ReferenceAbi.decode 0 "0xa694fc3a00" None stake_info
           "data out-of-bounds");
    try (vm_compute; reflexivity); [discriminate | cbn; lia].
Defined.

(** X11: For a function without parameters whatever follows the selector is
    ignored: the route answers the calldata as it answers the bare
    selector, without consulting the ABI decoder. *)
Theorem parameterless_calldata_ignores_data (abi : AbiDecoder) (now : Z) (cd : string)
    (ctx : option Context) (f : FuncInfo) :
  well_formed (Some cd) = true ->
  SELECTOR_DB !! JS.toLowerCase (JS.slice cd 0 10) = Some f ->
  paramTypes f = [] ->
  decodeCalldata abi (Some cd)
  = JS.Return (decoded_call (JS.toLowerCase (JS.slice cd 0 10)) f [])
  /\ translate_route abi now {| input := Some (Calldata (Some cd)); context := ctx |}
     = translate_route abi now
         {| input := Some (Calldata (Some (JS.slice cd 0 10))); context := ctx |}.
Proof.
  intros Hwf Hlookup Htypes.
  assert (Hdec : forall s, well_formed (Some s) = true ->
            JS.toLowerCase (JS.slice s 0 10) = JS.toLowerCase (JS.slice cd 0 10) ->
            decodeCalldata abi (Some s)
            = JS.Return (decoded_call (JS.toLowerCase (JS.slice cd 0 10)) f [])).
  { intros s Hs Hsel. unfold decodeCalldata. unfold well_formed in Hs.
    rewrite Nat.ltb_antisym, <- negb_andb, Hs. cbn [negb].
    rewrite Hsel, Hlookup, Htypes. reflexivity. }
  split; [apply Hdec; [exact Hwf | reflexivity] |].
  unfold well_formed in Hwf. apply andb_true_iff in Hwf as [Hprefix Hlen].
  apply Nat.leb_le in Hlen.
  assert (Hlen10 : String.length (JS.slice cd 0 10) = 10%nat)
    by (apply length_substring_prefix; exact Hlen).
  unfold translate_route, decode_input. cbn [input].
  rewrite (Hdec cd), (Hdec (JS.slice cd 0 10)); try reflexivity.
  - unfold well_formed. rewrite Hlen10. cbn [Nat.leb]. rewrite andb_true_r.
    destruct (startsWith_0x _ Hprefix) as [rest ->].
    unfold JS.startsWith. rewrite String.prefix_correct. cbn.
    destruct (String.substring 0 8 rest); reflexivity.
  - f_equal. unfold JS.slice at 1. cbn [Nat.sub]. rewrite <- Hlen10 at 1.
    apply substring_whole.
  - unfold well_formed. rewrite Hprefix. apply andb_true_iff. split; [reflexivity |].
    now apply Nat.leb_le.
Qed.

Lemma parameterless_calldata_ignores_data_witness :
  decodeCalldata ReferenceAbi.decode (Some "0x3d18B912ffff")
  = JS.Return (decoded_call (JS.toLowerCase (JS.slice "0x3d18B912ffff" 0 10)) getReward_info [])
  /\ translate_route ReferenceAbi.decode 0
       {| input := Some (Calldata (Some "0x3d18B912ffff")); context := None |}
     = translate_route ReferenceAbi.decode 0
         {| input := Some (Calldata (Some (JS.slice "0x3d18B912ffff" 0 10)));
            context := None |}.
Proof.
  apply (parameterless_calldata_ignores_data ReferenceAbi.decode 0 "0x3d18B912ffff" None
           getReward_info); vm_compute; reflexivity.
Defined.
(** ** The translate route, continued *)

(** A call the calldata branch hands to [translate] is registered. *)
Lemma decoded_is_registered (abi : AbiDecoder) (data : option string) (d : DecodedCall) :
  decodeCalldata abi data = JS.Return d ->
  decoded d = true ->
  is_Some (SELECTOR_DB !! selector d).
Proof.
  unfold decodeCalldata. intros H Hdecoded.
  repeat case_match; try discriminate; injection H as <-;
    try discriminate Hdecoded; cbn [selector decoded_call]; eauto.
Qed.

(** The call [decode_input] hands to [translate] is registered. *)
Lemma decode_input_registered (abi : AbiDecoder) (i : Input) (d : DecodedCall) :
  decode_input abi i = inr d -> is_Some (SELECTOR_DB !! selector d).
Proof.
  unfold decode_input. destruct i as [data | action params | type]; [| | discriminate].
  - destruct (decodeCalldata abi data) as [d' | message] eqn:Hdec; [| discriminate].
    destruct (decoded d') eqn:Hdecoded; cbn [negb]; [| discriminate].
    intros [= <-]. exact (decoded_is_registered abi data d' Hdec Hdecoded).
  - destruct (intentMap !! _) as [sel|]; [| case_match; discriminate].
    destruct (SELECTOR_DB !! sel) as [f|] eqn:Hlookup; [| discriminate].
    intros [= <-]. cbn [selector intent_call]. eauto.
Qed.

(** X12: The translate route answers an error with one of six (status, code)
    pairs; in particular the codes UNSUPPORTED ("Function not supported")
    and NO_BUILDER of [translate] never leave the route. *)
Theorem translate_route_error_codes (abi : AbiDecoder) (now : Z) (req : TranslateRequest)
    (status : Z) (code : string) (message : option string) :
  translate_route abi now req = ErrorResponse status code message ->
  In (status, code) translate_route_errors.
Proof.
  unfold translate_route, translate_route_errors.
  destruct (input req) as [i|]; [| intros [= <- <- _]; cbn; tauto].
  destruct (decode_input abi i) as [response | d] eqn:Hdecode.
  - intros ->. unfold decode_input in Hdecode.
    repeat case_match; try discriminate; injection Hdecode as <- <- _; cbn; tauto.
  - destruct (decode_input_registered abi i d Hdecode) as [f Hlookup].
    destruct (decide (matchType (injectiveMapping f) = UNSUPPORTED)) as [Hu | Hs].
    + unfold translate. rewrite Hlookup. cbv zeta.
      destruct (decide _); [| contradiction]. intros [= <- <- _]. cbn. tauto.
    + destruct (translate_registered now d (default empty_context (context req)) f
                  Hlookup Hs) as (ms & e & _ & ->). discriminate.
Qed.

Lemma translate_route_error_codes_witness :
  In (400%Z, "INVALID_TYPE") translate_route_errors.
Proof.
  apply (translate_route_error_codes ReferenceAbi.decode 0
           {| input := Some (OtherType (Some "abi")); context := None |}
           400 "INVALID_TYPE" (Some "Use calldata or intent")).
  reflexivity.
Defined.

(** X13: For a calldata request whose data field is a string or absent:
    data that is absent, does not start with "0x" or is shorter than ten
    characters is answered 500 ERROR "Invalid calldata"; and when the
    context is absent or an object whose fields are strings (the requests
    of type [TranslateRequest]) the converse holds as well, so that no
    other calldata is answered with status 500. *)
Theorem malformed_calldata_is_500 (abi : AbiDecoder) (now : Z) (data : option string)
    (ctx : option Context) :
  (well_formed data = false
   <-> translate_route abi now {| input := Some (Calldata data); context := ctx |}
       = ErrorResponse 500 "ERROR" (Some "Invalid calldata"))
  /\ (well_formed data = false
      <-> exists code message,
            translate_route abi now {| input := Some (Calldata data); context := ctx |}
            = ErrorResponse 500 code message).
Proof.
  assert (Hthrow : well_formed data = false ->
            translate_route abi now {| input := Some (Calldata data); context := ctx |}
            = ErrorResponse 500 "ERROR" (Some "Invalid calldata")).
  { intros Hwf. unfold translate_route, decode_input. cbn [input].
    rewrite (proj2 (decodeCalldata_throws abi data "Invalid calldata") (conj Hwf eq_refl)).
    reflexivity. }
  assert (Honly : forall code message,
            translate_route abi now {| input := Some (Calldata data); context := ctx |}
            = ErrorResponse 500 code message -> well_formed data = false).
  { intros code message. unfold translate_route. cbn [input].
    destruct (decode_input abi (Calldata data)) as [response | d] eqn:Hdecode.
    - intros ->. unfold decode_input in Hdecode.
      destruct (decodeCalldata abi data) as [d | m] eqn:Hdec.
      + case_match; discriminate.
      + now apply (decodeCalldata_throws abi data m).
    - destruct (translate _ _ _); discriminate. }
  split; split; eauto.
  intros (code & message & H). eauto.
Qed.




(** ** The compatibility route, continued *)

(** *** Rounding to binary64

    [Double.nearest] stays within the unit roundoff of its argument, keeps a
    positive value in its binade and is monotone. The bounds of the score,
    its value on a full count and its monotonicity in the partial count
    follow. *)

Section Rounding.

Local Open Scope Q_scope.

Lemma count_nonneg (n : nat) : 0 <= inject_Z (Z.of_nat n).
Proof. change 0 with (inject_Z 0). rewrite <- Zle_Qle. lia. Qed.

Lemma count_positive (n : nat) : (0 < n)%nat -> 0 < inject_Z (Z.of_nat n).
Proof. intros Hn. change 0 with (inject_Z 0). rewrite <- Zlt_Qlt. lia. Qed.

Lemma pow2_positive (e : Z) : 0 < Double.pow2 e.
Proof. apply Qpower_0_lt. reflexivity. Qed.

Lemma pow2_plus (n m : Z) : Double.pow2 (n + m) == Double.pow2 n * Double.pow2 m.
Proof. apply Qpower_plus. discriminate. Qed.

Lemma pow2_inject (n : Z) : (0 <= n)%Z -> Double.pow2 n == inject_Z (2 ^ n).
Proof. intros Hn. unfold Double.pow2. rewrite Zpower_Qpower by exact Hn. reflexivity. Qed.

Lemma pow2_monotone (n m : Z) : (n <= m)%Z -> Double.pow2 n <= Double.pow2 m.
Proof. intros H. apply Qpower_le_compat_l; [exact H | discriminate]. Qed.

(** [p / r] against [a / b], with the divisions cleared. *)
Lemma fraction_lower (p r a b : Q) :
  0 <= p -> p <= a -> 0 < b -> b <= r -> p * / r * b <= a.
Proof.
  intros Hp Hpa Hb Hbr.
  assert (Hinv : r * / r == 1) by (apply Qmult_inv_r; lra).
  assert (Hx : 0 < / r) by (apply Qinv_lt_0_compat; lra).
  set (x := / r) in *. clearbody x.
  assert (H1 : 0 <= (r - b) * (p * x))
    by (apply Qmult_le_0_compat; [lra | apply Qmult_le_0_compat; lra]).
  assert (H2 : p * x * r == p) by (rewrite <- Qmult_assoc, (Qmult_comm x r), Hinv; ring).
  assert (H3 : (r - b) * (p * x) == p * x * r - p * x * b) by ring.
  rewrite H3, H2 in H1. lra.
Qed.

Lemma fraction_upper (p r a b : Q) :
  0 < a -> a < p -> 0 < r -> r <= b -> a < p * / r * b.
Proof.
  intros Ha Hap Hr Hrb.
  assert (Hinv : r * / r == 1) by (apply Qmult_inv_r; lra).
  assert (Hx : 0 < / r) by (apply Qinv_lt_0_compat; lra).
  set (x := / r) in *. clearbody x.
  assert (H1 : 0 <= (b - r) * (p * x))
    by (apply Qmult_le_0_compat; [lra | apply Qmult_le_0_compat; lra]).
  assert (H2 : p * x * r == p) by (rewrite <- Qmult_assoc, (Qmult_comm x r), Hinv; ring).
  assert (H3 : (b - r) * (p * x) == p * x * b - p * x * r) by ring.
  rewrite H3, H2 in H1. lra.
Qed.

(** [Double.exponent] is the binade of a positive rational. *)
Lemma exponent_lower (q : Q) : 0 < q -> Double.pow2 (Double.exponent q) <= q.
Proof.
  intros Hq. unfold Double.exponent.
  destruct (Qle_bool _ q) eqn:Hle; [apply Qle_bool_iff; exact Hle |].
  clear Hle. destruct q as [a b]. cbn [Qnum Qden].
  assert (Ha : (0 < a)%Z) by (unfold Qlt in Hq; cbn in Hq; lia).
  pose proof (Z.log2_spec a Ha) as [Hla _].
  pose proof (Z.log2_spec (Zpos b) (Pos2Z.is_pos b)) as [_ Hlb].
  pose proof (Z.log2_nonneg a) as Hna. pose proof (Z.log2_nonneg (Zpos b)) as Hnb.
  replace (Z.log2 a - Z.log2 (Zpos b) - 1)%Z
    with (Z.log2 a + - Z.succ (Z.log2 (Zpos b)))%Z by lia.
  rewrite pow2_plus. unfold Double.pow2 at 2. rewrite Qpower_opp.
  fold (Double.pow2 (Z.succ (Z.log2 (Zpos b)))).
  rewrite !pow2_inject by lia. rewrite (Qmake_Qdiv a b).
  apply Qle_shift_div_l; [reflexivity |].
  apply fraction_lower.
  - change 0 with (inject_Z 0). rewrite <- Zle_Qle. apply Z.pow_nonneg. lia.
  - rewrite <- Zle_Qle. exact Hla.
  - reflexivity.
  - rewrite <- Zle_Qle. lia.
Qed.

Lemma exponent_upper (q : Q) : 0 < q -> q < Double.pow2 (Double.exponent q + 1).
Proof.
  intros Hq. unfold Double.exponent.
  destruct (Qle_bool _ q) eqn:Hle.
  - clear Hle. destruct q as [a b]. cbn [Qnum Qden].
    assert (Ha : (0 < a)%Z) by (unfold Qlt in Hq; cbn in Hq; lia).
    pose proof (Z.log2_spec a Ha) as [_ Hla].
    pose proof (Z.log2_spec (Zpos b) (Pos2Z.is_pos b)) as [Hlb _].
    pose proof (Z.log2_nonneg a) as Hna. pose proof (Z.log2_nonneg (Zpos b)) as Hnb.
    replace (Z.log2 a - Z.log2 (Zpos b) + 1)%Z
      with (Z.succ (Z.log2 a) + - Z.log2 (Zpos b))%Z by lia.
    rewrite pow2_plus. unfold Double.pow2 at 2. rewrite Qpower_opp.
    fold (Double.pow2 (Z.log2 (Zpos b))).
    rewrite !pow2_inject by lia. rewrite (Qmake_Qdiv a b).
    apply Qlt_shift_div_r; [reflexivity |].
    apply fraction_upper.
    + change 0 with (inject_Z 0). rewrite <- Zlt_Qlt. exact Ha.
    + rewrite <- Zlt_Qlt. exact Hla.
    + change 0 with (inject_Z 0). rewrite <- Zlt_Qlt. apply Z.pow_pos_nonneg; lia.
    + rewrite <- Zle_Qle. exact Hlb.
  - replace (Z.log2 (Qnum q) - Z.log2 (Zpos (Qden q)) - 1 + 1)%Z
      with (Z.log2 (Qnum q) - Z.log2 (Zpos (Qden q)))%Z by lia.
    apply Qnot_le_lt. intros H. apply Qle_bool_iff in H. congruence.
Qed.

Lemma exponent_monotone (x y : Q) :
  0 < x -> x <= y -> (Double.exponent x <= Double.exponent y)%Z.
Proof.
  intros Hx Hxy.
  destruct (Z.le_gt_cases (Double.exponent x) (Double.exponent y)) as [H | H];
    [exact H | exfalso].
  pose proof (exponent_lower x Hx) as Hlo.
  pose proof (exponent_upper y ltac:(lra)) as Hhi.
  pose proof (pow2_monotone (Double.exponent y + 1) (Double.exponent x) ltac:(lia)) as Hp.
  lra.
Qed.

(** [Double.nearest_even] is within a half of its argument, fixes the
    integers and is monotone. *)
Lemma nearest_even_bounds (q : Q) :
  q - (1 # 2) <= inject_Z (Double.nearest_even q) <= q + (1 # 2).
Proof.
  unfold Double.nearest_even.
  pose proof (Qfloor_le q) as Hlo. pose proof (Qlt_floor q) as Hhi.
  rewrite inject_Z_plus in Hhi. change (inject_Z 1) with 1 in Hhi.
  destruct (q - inject_Z (Qfloor q) ?= 1 # 2) eqn:Hcmp.
  - apply Qeq_alt in Hcmp.
    destruct (Z.even (Qfloor q)); rewrite ?inject_Z_plus; change (inject_Z 1) with 1; lra.
  - apply Qlt_alt in Hcmp. lra.
  - apply Qgt_alt in Hcmp. rewrite inject_Z_plus. change (inject_Z 1) with 1. lra.
Qed.

Lemma nearest_even_integer (n : Z) : Double.nearest_even (inject_Z n) = n.
Proof.
  unfold Double.nearest_even. rewrite Qfloor_Z.
  destruct (inject_Z n - inject_Z n ?= 1 # 2) eqn:Hc;
    [apply Qeq_alt in Hc; exfalso; lra | reflexivity | apply Qgt_alt in Hc; exfalso; lra].
Qed.

Lemma nearest_even_floor (q : Q) :
  (Qfloor q <= Double.nearest_even q <= Qfloor q + 1)%Z.
Proof.
  unfold Double.nearest_even.
  destruct (q - inject_Z (Qfloor q) ?= 1 # 2); try destruct (Z.even (Qfloor q)); lia.
Qed.

Lemma nearest_even_monotone (x y : Q) :
  x <= y -> (Double.nearest_even x <= Double.nearest_even y)%Z.
Proof.
  intros Hxy.
  pose proof (Qfloor_resp_le _ _ Hxy) as Hfl.
  pose proof (nearest_even_floor x) as Hx. pose proof (nearest_even_floor y) as Hy.
  destruct (Z.eq_dec (Qfloor x) (Qfloor y)) as [Heq | Hne]; [| lia].
  clear Hx Hy Hfl. unfold Double.nearest_even. rewrite <- Heq.
  set (n := Qfloor x) in *. clearbody n. clear Heq.
  destruct (x - inject_Z n ?= 1 # 2) eqn:Hcx; destruct (y - inject_Z n ?= 1 # 2) eqn:Hcy;
    try (destruct (Z.even n)); try lia; exfalso;
    repeat match goal with
      | H : (_ ?= _) = Eq |- _ => apply Qeq_alt in H
      | H : (_ ?= _) = Lt |- _ => apply Qlt_alt in H
      | H : (_ ?= _) = Gt |- _ => apply Qgt_alt in H
      end; lra.
Qed.

(** The rounded value of a positive rational: an integer between [2^52] and
    [2^53] times a power of two, in the binade of the rational and within
    the unit roundoff of it. *)
Lemma nearest_positive_scaled (q : Q) :
  Double.nearest_positive q
  == inject_Z (Double.nearest_even (q * Double.pow2 (- (Double.exponent q - 52))))
     * Double.pow2 (Double.exponent q - 52).
Proof. unfold Double.nearest_positive. apply Qred_correct. Qed.

Lemma nearest_positive_significand (q : Q) :
  0 < q ->
  (2 ^ 52 <= Double.nearest_even (q * Double.pow2 (- (Double.exponent q - 52))) <= 2 ^ 53)%Z.
Proof.
  intros Hq. set (k := Double.exponent q).
  pose proof (exponent_lower q Hq) as Hlo. pose proof (exponent_upper q Hq) as Hhi.
  fold k in Hlo, Hhi.
  pose proof (pow2_positive (- (k - 52))) as HEi.
  assert (H52 : Double.pow2 k * Double.pow2 (- (k - 52)) == inject_Z (2 ^ 52)).
  { rewrite <- pow2_plus. replace (k + - (k - 52))%Z with 52%Z by lia. reflexivity. }
  assert (H53 : Double.pow2 (k + 1) * Double.pow2 (- (k - 52)) == inject_Z (2 ^ 53)).
  { rewrite <- pow2_plus. replace (k + 1 + - (k - 52))%Z with 53%Z by lia. reflexivity. }
  assert (Hlo' : inject_Z (2 ^ 52) <= q * Double.pow2 (- (k - 52))).
  { rewrite <- H52. apply Qmult_le_compat_r; lra. }
  assert (Hhi' : q * Double.pow2 (- (k - 52)) <= inject_Z (2 ^ 53)).
  { rewrite <- H53. apply Qmult_le_compat_r; lra. }
  apply nearest_even_monotone in Hlo', Hhi'. rewrite nearest_even_integer in Hlo', Hhi'.
  split; assumption.
Qed.

Lemma nearest_positive_binade (q : Q) :
  0 < q ->
  Double.pow2 (Double.exponent q) <= Double.nearest_positive q
  <= Double.pow2 (Double.exponent q + 1).
Proof.
  intros Hq. rewrite nearest_positive_scaled.
  destruct (nearest_positive_significand q Hq) as [Hlo Hhi].
  set (k := Double.exponent q) in *.
  set (m := Double.nearest_even (q * Double.pow2 (- (k - 52)))) in *. clearbody m.
  pose proof (pow2_positive (k - 52)) as HE.
  assert (Hk : Double.pow2 k == inject_Z (2 ^ 52) * Double.pow2 (k - 52)).
  { change (inject_Z (2 ^ 52)) with (Double.pow2 52). rewrite <- pow2_plus.
    replace (52 + (k - 52))%Z with k by lia. reflexivity. }
  assert (Hk1 : Double.pow2 (k + 1) == inject_Z (2 ^ 53) * Double.pow2 (k - 52)).
  { change (inject_Z (2 ^ 53)) with (Double.pow2 53). rewrite <- pow2_plus.
    replace (53 + (k - 52))%Z with (k + 1)%Z by lia. reflexivity. }
  rewrite Hk, Hk1. rewrite Zle_Qle in Hlo, Hhi.
  split; apply Qmult_le_compat_r; lra.
Qed.

Lemma nearest_positive_bounds (q : Q) :
  0 < q ->
  q * (1 - Double.epsilon) <= Double.nearest_positive q <= q * (1 + Double.epsilon).
Proof.
  intros Hq. rewrite nearest_positive_scaled.
  set (e := (Double.exponent q - 52)%Z).
  pose proof (nearest_even_bounds (q * Double.pow2 (- e))) as [Hlo Hhi].
  set (m := inject_Z (Double.nearest_even (q * Double.pow2 (- e)))) in *. clearbody m.
  pose proof (pow2_positive e) as HE. pose proof (pow2_positive (- e)) as HEi.
  assert (Hone : Double.pow2 (- e) * Double.pow2 e == 1).
  { rewrite <- pow2_plus. replace (- e + e)%Z with 0%Z by lia. reflexivity. }
  assert (Hexp : Double.pow2 e <= q * Double.pow2 (-52)).
  { unfold e. replace (Double.exponent q - 52)%Z with (Double.exponent q + -52)%Z by lia.
    rewrite pow2_plus. apply Qmult_le_compat_r; [apply exponent_lower; exact Hq |].
    apply Qlt_le_weak, pow2_positive. }
  assert (Hhalf : Double.pow2 (-52) * (1 # 2) == Double.epsilon) by reflexivity.
  set (E := Double.pow2 e) in *. set (Ei := Double.pow2 (- e)) in *.
  set (d := Double.pow2 (-52)) in *. clearbody E Ei d.
  assert (H1 : (m - (q * Ei - (1 # 2))) * E == m * E - q * (Ei * E) + (1 # 2) * E) by ring.
  assert (H2 : (q * Ei + (1 # 2) - m) * E == q * (Ei * E) + (1 # 2) * E - m * E) by ring.
  assert (G1 : 0 <= (m - (q * Ei - (1 # 2))) * E) by (apply Qmult_le_0_compat; lra).
  assert (G2 : 0 <= (q * Ei + (1 # 2) - m) * E) by (apply Qmult_le_0_compat; lra).
  rewrite H1, Hone in G1. rewrite H2, Hone in G2.
  assert (H3 : q * (1 + Double.epsilon) == q + q * d * (1 # 2)) by (rewrite <- Hhalf; ring).
  assert (H4 : q * (1 - Double.epsilon) == q - q * d * (1 # 2)) by (rewrite <- Hhalf; ring).
  rewrite H3, H4. split; lra.
Qed.

Lemma nearest_positive_monotone (x y : Q) :
  0 < x -> x <= y -> Double.nearest_positive x <= Double.nearest_positive y.
Proof.
  intros Hx Hxy. assert (Hy : 0 < y) by lra.
  pose proof (exponent_monotone x y Hx Hxy) as He.
  destruct (Z.eq_dec (Double.exponent x) (Double.exponent y)) as [Heq | Hne].
  - rewrite !nearest_positive_scaled, Heq.
    pose proof (pow2_positive (Double.exponent y - 52)) as HE.
    pose proof (pow2_positive (- (Double.exponent y - 52))) as HEi.
    apply Qmult_le_compat_r; [| lra].
    rewrite <- Zle_Qle. apply nearest_even_monotone.
    apply Qmult_le_compat_r; lra.
  - pose proof (nearest_positive_binade x Hx) as [_ H1].
    pose proof (nearest_positive_binade y Hy) as [H2 _].
    pose proof (pow2_monotone (Double.exponent x + 1) (Double.exponent y) ltac:(lia)) as Hp.
    lra.
Qed.

(** [Double.nearest] on the rationals that are not negative. *)
Lemma nearest_eq (x y : Q) : x == y -> Double.nearest x = Double.nearest y.
Proof. intros H. unfold Double.nearest. rewrite (Qred_complete _ _ H). reflexivity. Qed.

Lemma nearest_bounds (q : Q) :
  0 <= q -> 0 <= Double.nearest q /\ Double.nearest q <= q * (1 + Double.epsilon).
Proof.
  intros Hq. unfold Double.nearest.
  assert (Heps : 0 < Double.epsilon < 1) by (split; reflexivity).
  pose proof (Qred_correct q) as Hred.
  destruct (Qred q) as [a b] eqn:Hr. cbn [Qnum].
  destruct a as [| a | a].
  - split; [lra |]. apply Qmult_le_0_compat; lra.
  - assert (Hpos : 0 < Z.pos a # b) by reflexivity.
    destruct (nearest_positive_bounds _ Hpos) as [H1 H2]. split.
    + apply Qle_trans with (2 := H1). apply Qmult_le_0_compat; lra.
    + apply Qle_trans with (1 := H2). rewrite Hred. apply Qle_refl.
  - exfalso. assert (Hneg : Z.neg a # b < 0) by reflexivity. lra.
Qed.

Lemma nearest_monotone (x y : Q) :
  0 <= x -> x <= y -> Double.nearest x <= Double.nearest y.
Proof.
  intros Hx Hxy.
  destruct (Qlt_le_dec 0 x) as [Hpos | Hzero].
  - unfold Double.nearest.
    pose proof (Qred_correct x) as Hrx. pose proof (Qred_correct y) as Hry.
    destruct (Qred x) as [a b]. destruct (Qred y) as [c d]. cbn [Qnum].
    destruct a as [| a | a];
      [ exfalso; assert (0 # b == 0) by reflexivity; lra
      |
      | exfalso; assert (Z.neg a # b < 0) by reflexivity; lra ].
    destruct c as [| c | c];
      [ exfalso; assert (0 # d == 0) by reflexivity; lra
      |
      | exfalso; assert (Z.neg c # d < 0) by reflexivity; lra ].
    apply nearest_positive_monotone; [reflexivity | lra].
  - assert (H0 : x == 0) by lra. rewrite (nearest_eq _ _ H0).
    apply (nearest_bounds y). lra.
Qed.

(** The score. *)
Lemma percent_score_monotone (s p p' n : nat) :
  (0 < n)%nat -> (p <= p')%nat -> (percent_score s p n <= percent_score s p' n)%Z.
Proof.
  intros Hn Hle. unfold percent_score, JS.Math_round, Double.mul, Double.div.
  pose proof (count_nonneg s) as Hs. pose proof (count_nonneg p) as Hp.
  pose proof (count_positive n Hn) as Hn'.
  assert (Hp' : inject_Z (Z.of_nat p) <= inject_Z (Z.of_nat p')) by (rewrite <- Zle_Qle; lia).
  assert (Hi : 0 < / inject_Z (Z.of_nat n)) by (apply Qinv_lt_0_compat; exact Hn').
  set (x := (inject_Z (Z.of_nat s) + inject_Z (Z.of_nat p) * (1 # 2))
            / inject_Z (Z.of_nat n)).
  set (y := (inject_Z (Z.of_nat s) + inject_Z (Z.of_nat p') * (1 # 2))
            / inject_Z (Z.of_nat n)).
  assert (Hx : 0 <= x) by (apply Qle_shift_div_l; [exact Hn' | lra]).
  assert (Hxy : x <= y) by (apply Qmult_le_compat_r; lra).
  pose proof (nearest_monotone _ _ Hx Hxy) as Hd.
  pose proof (nearest_bounds _ Hx) as [Hd0 _].
  apply Qfloor_resp_le, Qplus_le_compat; [| apply Qle_refl].
  apply nearest_monotone; lra.
Qed.

Lemma percent_score_bounds (s p n : nat) :
  (0 < n)%nat -> (s + p <= n)%nat -> (0 <= percent_score s p n <= 100)%Z.
Proof.
  intros Hn Hle. unfold percent_score, JS.Math_round, Double.mul, Double.div.
  pose proof (count_nonneg s) as Hs. pose proof (count_nonneg p) as Hp.
  pose proof (count_positive n Hn) as Hn'.
  assert (Hsum : inject_Z (Z.of_nat s) + inject_Z (Z.of_nat p) <= inject_Z (Z.of_nat n))
    by (rewrite <- inject_Z_plus, <- Zle_Qle; lia).
  set (x := (inject_Z (Z.of_nat s) + inject_Z (Z.of_nat p) * (1 # 2))
            / inject_Z (Z.of_nat n)).
  assert (Hx : 0 <= x <= 1).
  { unfold x. split.
    - apply Qle_shift_div_l; [exact Hn' | lra].
    - apply Qle_shift_div_r; [exact Hn' | lra]. }
  destruct (nearest_bounds x) as [Ha Hb]; [lra |].
  set (d1 := Double.nearest x) in *. clearbody d1.
  destruct (nearest_bounds (d1 * 100)) as [Hc Hd]; [lra |].
  set (d2 := Double.nearest (d1 * 100)) in *. clearbody d2.
  assert (Heps : 0 < Double.epsilon) by reflexivity.
  assert (Hd1 : d1 <= 1 + Double.epsilon).
  { apply Qle_trans with (x * (1 + Double.epsilon)); [exact Hb |].
    assert (H : 0 <= (1 - x) * (1 + Double.epsilon)) by (apply Qmult_le_0_compat; lra).
    assert (H' : (1 - x) * (1 + Double.epsilon)
                 == (1 + Double.epsilon) - x * (1 + Double.epsilon)) by ring.
    rewrite H' in H. lra. }
  assert (Hd2 : d2 <= (1 + Double.epsilon) * 100 * (1 + Double.epsilon)).
  { apply Qle_trans with (d1 * 100 * (1 + Double.epsilon)); [exact Hd |].
    apply Qmult_le_compat_r; lra. }
  split.
  - change 0%Z with (Qfloor 0). apply Qfloor_resp_le. lra.
  - change 100%Z
      with (Qfloor ((1 + Double.epsilon) * 100 * (1 + Double.epsilon) + (1 # 2))).
    apply Qfloor_resp_le. lra.
Qed.

Lemma percent_score_all (n : nat) : (0 < n)%nat -> percent_score n 0 n = 100%Z.
Proof.
  intros Hn. unfold percent_score, Double.div.
  pose proof (count_positive n Hn) as Hn'.
  rewrite (nearest_eq _ 1); [reflexivity |].
  field. lra.
Qed.

End Rounding.


Lemma count_status_cons (v : Verdict.t) (r : PatternResult) (results : list PatternResult) :
  count_status v (r :: results)
  = ((if decide (status r = v) then 1 else 0) + count_status v results)%nat.
Proof.
  unfold count_status. rewrite filter_cons. destruct (decide (status r = v)); reflexivity.
Qed.

Lemma count_status_partition (results : list PatternResult) :
  (count_status Verdict.SUPPORTED results + count_status Verdict.PARTIAL results
   + count_status Verdict.UNSUPPORTED results + count_status Verdict.UNKNOWN results)%nat
  = length results.
Proof.
  induction results as [|r results IH]; [reflexivity |].
  rewrite !count_status_cons. cbn [length]. rewrite <- IH.
  destruct (status r); repeat case_decide; try discriminate; try congruence; lia.
Qed.

Lemma count_status_positive (v : Verdict.t) (results : list PatternResult) :
  (0 < count_status v results)%nat <-> exists r, In r results /\ status r = v.
Proof.
  induction results as [|r results IH].
  - cbn. split; [lia | intros (r & [] & _)].
  - rewrite count_status_cons. split.
    + destruct (decide (status r = v)) as [Hv | Hv].
      * intros _. exists r. split; [left; reflexivity | exact Hv].
      * intros H. destruct (proj1 IH) as (r' & Hin & Hr'); [lia |].
        exists r'. split; [right; exact Hin | exact Hr'].
    + intros (r' & [<- | Hin] & Hr').
      * destruct (decide _); [lia | contradiction].
      * assert (0 < count_status v results)%nat by (apply IH; eauto). lia.
Qed.

Lemma count_status_le (v : Verdict.t) (results : list PatternResult) :
  (count_status v results <= length results)%nat.
Proof. pose proof (count_status_partition results). destruct v; lia. Qed.

(** The route on a request with at least one pattern. *)
Lemma compatibility_route_report (req : CompatibilityRequest) :
  all_patterns req <> [] ->
  let results := map classify_pattern (all_patterns req) in
  let supported := count_status Verdict.SUPPORTED results in
  let partial := count_status Verdict.PARTIAL results in
  let unsupported :=
    (count_status Verdict.UNSUPPORTED results + count_status Verdict.UNKNOWN results)%nat in
  let score := percent_score supported partial (length results) in
  compatibility_route req
  = CompatibilityReport score (compatibility_status score)
      (pretty supported ++ "/" ++ pretty (length results) ++ " supported")
      results
      ((if (supported <? length results)%nat then ["Some patterns need workarounds"] else [])
         ++ (if (0 <? unsupported)%nat
             then ["Unsupported patterns require redesign"] else []))%list.
Proof.
  intros Hne. cbv zeta. unfold compatibility_route. fold (all_patterns req).
  destruct (all_patterns req); [contradiction | reflexivity].
Qed.




Lemma count_status_all (v : Verdict.t) (results : list PatternResult) :
  Forall (fun r => status r = v) results -> count_status v results = length results.
Proof.
  induction 1 as [|r results Hr _ IH]; [reflexivity |].
  rewrite count_status_cons, IH. destruct (decide _); [reflexivity | contradiction].
Qed.

Lemma count_status_below (results : list PatternResult) :
  (count_status Verdict.SUPPORTED results < length results)%nat
  <-> exists r, In r results /\ status r <> Verdict.SUPPORTED.
Proof.
  induction results as [|r results IH].
  - cbn. split; [lia | intros (r & [] & _)].
  - rewrite count_status_cons. cbn [length].
    pose proof (count_status_le Verdict.SUPPORTED results) as Hle. split.
    + destruct (decide (status r = Verdict.SUPPORTED)) as [Hv | Hv].
      * intros H. destruct (proj1 IH) as (r' & Hin & Hr'); [lia |].
        exists r'. split; [right; exact Hin | exact Hr'].
      * intros _. exists r. split; [left; reflexivity | exact Hv].
    + intros (r' & [<- | Hin] & Hr').
      * destruct (decide _); [contradiction | lia].
      * assert (count_status Verdict.SUPPORTED results < length results)%nat
          by (apply IH; eauto).
        destruct (decide _); lia.
Qed.

(** The status [classify_pattern] gives a registered DIRECT signature. *)
Lemma classify_direct (p : string) (f : FuncInfo) :
  SELECTOR_DB !! selector_of p = Some f ->
  matchType (injectiveMapping f) = DIRECT ->
  status (classify_pattern p) = Verdict.SUPPORTED.
Proof.
  intros Hlookup Hdirect. unfold classify_pattern. rewrite Hlookup. cbn [status].
  now rewrite Hdirect.
Qed.

(** X17: When every pattern is the signature of a DIRECT registry entry the
    score is 100, the status MOSTLY_COMPATIBLE, and nothing is
    recommended. *)
Theorem compatibility_all_direct (req : CompatibilityRequest) :
  all_patterns req <> [] ->
  (forall p, In p (all_patterns req) ->
     exists f, SELECTOR_DB !! selector_of p = Some f
               /\ matchType (injectiveMapping f) = DIRECT) ->
  exists summary results,
    compatibility_route req
    = CompatibilityReport 100 MOSTLY_COMPATIBLE summary results [].
Proof.
  intros Hne Hdirect. rewrite (compatibility_route_report req Hne).
  set (results := map classify_pattern (all_patterns req)).
  assert (Hall : Forall (fun r => status r = Verdict.SUPPORTED) results).
  { subst results. apply Forall_map, Forall_forall. intros p Hp%list_elem_of_In.
    destruct (Hdirect p Hp) as (f & Hlookup & Hm). exact (classify_direct p f Hlookup Hm). }
  pose proof (count_status_partition results) as Hsum.
  rewrite (count_status_all _ _ Hall) in *.
  assert (Hlen : (0 < length results)%nat).
  { subst results. rewrite length_map. destruct (all_patterns req); [contradiction | cbn; lia]. }
  replace (count_status Verdict.PARTIAL results) with 0%nat by lia.
  replace (count_status Verdict.UNSUPPORTED results) with 0%nat by lia.
  replace (count_status Verdict.UNKNOWN results) with 0%nat by lia.
  rewrite (percent_score_all _ Hlen), Nat.ltb_irrefl. eexists _, _. reflexivity.
Qed.

Lemma compatibility_all_direct_witness :
  exists summary results,
    compatibility_route {| patterns := Some ["stake(uint256)"];
                           contractAbi := Some [abi_item_of getReward_info] |}
    = CompatibilityReport 100 MOSTLY_COMPATIBLE summary results [].
Proof.
  apply (compatibility_all_direct
           {| patterns := Some ["stake(uint256)"];
              contractAbi := Some [abi_item_of getReward_info] |}).
  - vm_compute. discriminate.
  - intros p Hp. vm_compute in Hp. destruct Hp as [<- | [<- | []]];
      eexists; split; vm_compute; reflexivity.
Defined.

Lemma recommendations_spec (a b : bool) :
  let recommendations :=
    ((if a then ["Some patterns need workarounds"] else [])
       ++ (if b then ["Unsupported patterns require redesign"] else []))%list in
  (In "Some patterns need workarounds" recommendations <-> a = true)
  /\ (In "Unsupported patterns require redesign" recommendations <-> b = true).
Proof. destruct a, b; cbn; intuition congruence. Qed.

Lemma count_unsupported_positive (results : list PatternResult) :
  (0 < count_status Verdict.UNSUPPORTED results + count_status Verdict.UNKNOWN results)%nat
  <-> exists r, In r results
        /\ (status r = Verdict.UNSUPPORTED \/ status r = Verdict.UNKNOWN).
Proof.
  split.
  - intros Hpos.
    destruct (Nat.eq_dec (count_status Verdict.UNSUPPORTED results) 0) as [Hz | Hnz].
    + destruct (proj1 (count_status_positive Verdict.UNKNOWN results)) as (r & ? & ?);
        [lia | eauto].
    + destruct (proj1 (count_status_positive Verdict.UNSUPPORTED results))
        as (r & ? & ?); [lia | eauto].
  - intros (r & Hin & [Hr | Hr]);
      assert (0 < count_status (status r) results)%nat
        by (apply count_status_positive; eauto); rewrite Hr in *; lia.
Qed.

(** X18: The two recommendations: workarounds are recommended exactly when some
    verdict is not SUPPORTED, a redesign exactly when some verdict is
    UNSUPPORTED or UNKNOWN. *)
Theorem compatibility_recommendations (req : CompatibilityRequest) (score : Z)
    (st : CompatibilityStatus) (summary : string) (results : list PatternResult)
    (recommendations : list string) :
  compatibility_route req = CompatibilityReport score st summary results recommendations ->
  (In "Some patterns need workarounds" recommendations
   <-> exists r, In r results /\ status r <> Verdict.SUPPORTED)
  /\ (In "Unsupported patterns require redesign" recommendations
      <-> exists r, In r results
            /\ (status r = Verdict.UNSUPPORTED \/ status r = Verdict.UNKNOWN)).
Proof.
  intros H.
  assert (Hne : all_patterns req <> []).
  { intros Hall. unfold compatibility_route in H. fold (all_patterns req) in H.
    rewrite Hall in H. discriminate. }
  rewrite (compatibility_route_report req Hne) in H. cbv zeta in H.
  set (computed := map classify_pattern (all_patterns req)) in H.
  clearbody computed. injection H as _ _ _ <- <-.
  rewrite <- count_status_below, <- count_unsupported_positive, <- !Nat.ltb_lt.
  apply recommendations_spec.
Qed.

Lemma compatibility_recommendations_witness :
  (In "Some patterns need workarounds"
      ["Some patterns need workarounds"; "Unsupported patterns require redesign"]
   <-> exists r, In r [classify_pattern "mint(address,uint256)"]
         /\ status r <> Verdict.SUPPORTED)
  /\ (In "Unsupported patterns require redesign"
         ["Some patterns need workarounds"; "Unsupported patterns require redesign"]
      <-> exists r, In r [classify_pattern "mint(address,uint256)"]
            /\ (status r = Verdict.UNSUPPORTED \/ status r = Verdict.UNKNOWN)).
Proof.
  apply (compatibility_recommendations
           {| patterns := Some ["mint(address,uint256)"]; contractAbi := None |}
           0 INCOMPATIBLE "0/1 supported").
  vm_compute. reflexivity.
Defined.

(** ** The migration-estimate route, continued *)

Lemma count_class_partition (functions : list AbiItem) :
  (count_class Status.supported functions + count_class Status.partial functions
   + count_class Status.unsupported functions)%nat = length functions.
Proof.
  induction functions as [|func functions IH]; [reflexivity |].
  rewrite !count_class_cons. cbn [length]. rewrite <- IH.
  destruct (migration_class (resolve func));
    repeat case_decide; try discriminate; try congruence; lia.
Qed.

Lemma count_class_positive (c : Status.t) (functions : list AbiItem) :
  (0 < count_class c functions)%nat
  <-> exists func, In func functions /\ migration_class (resolve func) = c.
Proof.
  induction functions as [|func functions IH].
  - cbn. split; [lia | intros (r & [] & _)].
  - rewrite count_class_cons. split.
    + destruct (decide (migration_class (resolve func) = c)) as [Hv | Hv].
      * intros _. exists func. split; [left; reflexivity | exact Hv].
      * intros H. destruct (proj1 IH) as (r' & Hin & Hr'); [lia |].
        exists r'. split; [right; exact Hin | exact Hr'].
    + intros (r' & [<- | Hin] & Hr').
      * destruct (decide _); [lia | contradiction].
      * assert (0 < count_class c functions)%nat by (apply IH; eauto). lia.
Qed.

Lemma estimate_step_details (acc : Tally) (func : AbiItem) :
  map d_signature (details (estimate_step acc func))
  = (map d_signature (details acc) ++ [signature_of func])%list
  /\ map d_name (details (estimate_step acc func))
     = (map d_name (details acc) ++ [item_name func])%list.
Proof.
  unfold estimate_step. destruct (classify_function func) as [[] path];
    cbn [details]; rewrite !map_app; split; reflexivity.
Qed.

Lemma estimate_fold_details (functions : list AbiItem) (acc : Tally) :
  map d_signature (details (foldl estimate_step acc functions))
  = (map d_signature (details acc) ++ map signature_of functions)%list
  /\ map d_name (details (foldl estimate_step acc functions))
     = (map d_name (details acc) ++ map item_name functions)%list.
Proof.
  revert acc. induction functions as [|func functions IH]; intros acc.
  - cbn. rewrite !app_nil_r. auto.
  - cbn [foldl]. destruct (IH (estimate_step acc func)) as [Hs Hn].
    destruct (estimate_step_details acc func) as [Hs1 Hn1].
    rewrite Hs, Hn, Hs1, Hn1. cbn [map]. rewrite <- !app_assoc. auto.
Qed.

(** X19: The tallies account for every function exactly once, and the details
    list one entry per function, in order, under its name and derived
    signature. *)
Theorem estimate_tally_accounts (functions : list AbiItem) :
  let t := estimate_tally functions in
  (supported t + partial t + unsupported t)%nat = length functions
  /\ map d_signature (details t) = map signature_of functions
  /\ map d_name (details t) = map item_name functions.
Proof.
  cbv zeta. unfold estimate_tally.
  destruct (estimate_fold_spec functions
              {| supported := 0; partial := 0; unsupported := 0; details := [] |})
    as (Hs & Hp & Hu & _).
  destruct (estimate_fold_details functions
              {| supported := 0; partial := 0; unsupported := 0; details := [] |})
    as (Hsig & Hname).
  cbn in Hs, Hp, Hu, Hsig, Hname. rewrite Hs, Hp, Hu.
  split; [apply count_class_partition | auto].
Qed.

(** The route on a non-empty ABI. *)
Lemma estimate_route_report (abi : list AbiItem) :
  abi <> [] ->
  let functions := List.filter is_function abi in
  let t := estimate_tally functions in
  let total := match length functions with O => 1%nat | n => n end in
  estimate_route (Some abi)
  = EstimateReport (feasibility_of (complexity t total))
      (percent_score (supported t) (partial t) total) total t
      (if (0 <? unsupported t)%nat then ["Unsupported patterns"] else []).
Proof.
  intros Hne. cbv zeta. unfold estimate_route. cbn [default].
  destruct abi; [contradiction | reflexivity].
Qed.



Lemma estimate_counts (functions : list AbiItem) :
  supported (estimate_tally functions) = count_class Status.supported functions
  /\ partial (estimate_tally functions) = count_class Status.partial functions
  /\ unsupported (estimate_tally functions) = count_class Status.unsupported functions.
Proof.
  destruct (estimate_fold_spec functions
              {| supported := 0; partial := 0; unsupported := 0; details := [] |})
    as (Hs & Hp & Hu & _).
  cbn in Hs, Hp, Hu. auto.
Qed.

(** X21: A blocker is reported exactly when some function of the ABI resolves to
    an UNSUPPORTED registry entry; an unresolved function never blocks. *)
Theorem estimate_blocker_iff (abi : list AbiItem) (feasibility : Feasibility)
    (parity : Z) (total : nat) (tally : Tally) (blockers : list string) :
  estimate_route (Some abi) = EstimateReport feasibility parity total tally blockers ->
  blockers <> []
  <-> exists func f,
        In func abi /\ is_function func = true /\ resolve func = Some f
        /\ matchType (injectiveMapping f) = UNSUPPORTED.
Proof.
  intros H.
  assert (Hne : abi <> []) by (intros ->; discriminate H).
  rewrite (estimate_route_report abi Hne) in H. cbv zeta in H.
  set (functions := List.filter is_function abi) in *.
  destruct (estimate_counts functions) as (_ & _ & Hu).
  set (computed := estimate_tally functions) in *. clearbody computed.
  injection H as _ _ _ <- <-.
  rewrite Hu.
  assert (Hiff : (0 < count_class Status.unsupported functions)%nat
                 <-> exists func f,
                       In func abi /\ is_function func = true
                       /\ resolve func = Some f
                       /\ matchType (injectiveMapping f) = UNSUPPORTED).
  { rewrite count_class_positive. split.
    - intros (func & Hin & Hclass). subst functions. apply filter_In in Hin as [Hin Hfun].
      unfold migration_class in Hclass.
      destruct (resolve func) as [f|] eqn:Hres; [| discriminate].
      exists func, f. destruct (matchType (injectiveMapping f)); try discriminate. auto.
    - intros (func & f & Hin & Hfun & Hres & Hm). exists func. split.
      + subst functions. apply filter_In. auto.
      + unfold migration_class. now rewrite Hres, Hm. }
  rewrite <- Hiff, <- Nat.ltb_lt.
  destruct (0 <? _)%nat; split; try discriminate; try congruence; auto.
Qed.

Lemma estimate_blocker_iff_witness :
  ["Unsupported patterns"] <> []
  <-> exists func f,
        In func [abi_item_of addLiquidity_info] /\ is_function func = true
        /\ resolve func = Some f /\ matchType (injectiveMapping f) = UNSUPPORTED.
Proof.
  eapply (estimate_blocker_iff [abi_item_of addLiquidity_info]).
  vm_compute. reflexivity.
Defined.


Lemma count_class_all (c : Status.t) (functions : list AbiItem) :
  Forall (fun func => migration_class (resolve func) = c) functions ->
  count_class c functions = length functions.
Proof.
  induction 1 as [|func functions Hc _ IH]; [reflexivity |].
  rewrite count_class_cons, IH. destruct (decide _); [reflexivity | contradiction].
Qed.

(** X22: The feature parity of an estimate lies between 0 and 100. *)
Theorem estimate_parity_bounds (abi : option (list AbiItem)) (parity : Z) :
  report_parity (estimate_route abi) = Some parity -> (0 <= parity <= 100)%Z.
Proof.
  destruct abi as [abi|]; [| discriminate].
  destruct abi as [|a abi'] eqn:Habi; [discriminate |]. rewrite <- Habi.
  rewrite estimate_route_report by (rewrite Habi; discriminate). cbv zeta.
  set (functions := List.filter is_function abi).
  cbn [report_parity]. intros [= <-].
  destruct (estimate_counts functions) as (Hs & Hp & Hu).
  pose proof (count_class_partition functions) as Hsum.
  apply percent_score_bounds; destruct (length functions); lia.
Qed.

Lemma estimate_parity_bounds_witness : (0 <= 50 <= 100)%Z.
Proof.
  apply (estimate_parity_bounds (Some [mint_function]) 50). vm_compute. reflexivity.
Defined.

(** X23: When every function of the ABI is the signature of a DIRECT registry
    entry the estimate is STRAIGHTFORWARD with feature parity 100 and no
    blocker, and every function is tallied as supported. *)
Theorem estimate_all_direct (abi : list AbiItem) :
  List.filter is_function abi <> [] ->
  (forall func, In func abi -> is_function func = true ->
     exists f, resolve func = Some f /\ matchType (injectiveMapping f) = DIRECT) ->
  exists details,
    estimate_route (Some abi)
    = EstimateReport STRAIGHTFORWARD 100 (length (List.filter is_function abi))
        {| supported := length (List.filter is_function abi); partial := 0;
           unsupported := 0; details := details |}
        [].
Proof.
  intros Hfun Hdirect.
  assert (Hne : abi <> []) by (intros ->; contradiction).
  rewrite (estimate_route_report abi Hne). cbv zeta.
  set (functions := List.filter is_function abi) in *.
  assert (Hall : Forall (fun func => migration_class (resolve func) = Status.supported)
                   functions).
  { apply Forall_forall. intros func Hin%list_elem_of_In. subst functions.
    apply filter_In in Hin as [Hin Hf]. destruct (Hdirect func Hin Hf) as (f & Hres & Hm).
    unfold migration_class. now rewrite Hres, Hm. }
  destruct (estimate_counts functions) as (Hs & Hp & Hu).
  pose proof (count_class_partition functions) as Hsum.
  rewrite (count_class_all _ _ Hall) in *.
  assert (Hlen : (0 < length functions)%nat) by (destruct functions; [contradiction | cbn; lia]).
  destruct (estimate_tally functions) as [s p u ds]. cbn [supported partial unsupported] in *.
  subst s. replace p with 0%nat by lia. replace u with 0%nat by lia.
  exists ds.
  replace (match length functions with O => 1%nat | S n0 => S n0 end)
    with (length functions) by (destruct (length functions); [lia | reflexivity]).
  rewrite (percent_score_all _ Hlen). f_equal.
  unfold feasibility_of, complexity, Double.div. cbn [supported partial unsupported].
  replace (length functions + 0 * 2 + 0 * 4)%nat with (length functions) by lia.
  rewrite (nearest_eq _ 1); [reflexivity |].
  assert (Hpos : (0 < inject_Z (Z.of_nat (length functions)))%Q)
    by (change 0%Q with (inject_Z 0); rewrite <- Zlt_Qlt; lia).
  field. lra.
Qed.

Lemma estimate_all_direct_witness :
  exists details,
    estimate_route (Some [abi_item_of transfer_info; abi_item_of stake_info])
    = EstimateReport STRAIGHTFORWARD 100
        (length (List.filter is_function [abi_item_of transfer_info; abi_item_of stake_info]))
        {| supported :=
             length (List.filter is_function
                       [abi_item_of transfer_info; abi_item_of stake_info]);
           partial := 0; unsupported := 0; details := details |}
        [].
Proof.
  apply (estimate_all_direct [abi_item_of transfer_info; abi_item_of stake_info]).
  - vm_compute. discriminate.
  - intros func [<- | [<- | []]] _; eexists; split; vm_compute; reflexivity.
Defined.

(** ** The two reports on the same ABI *)

(** The scorer's verdict on a function's signature against the estimator's
    class of the function: they agree on registered functions; an
    unregistered one is UNKNOWN or UNSUPPORTED for the scorer and partial
    for the estimator. *)
Lemma verdict_and_class (func : AbiItem) :
  let v := status (classify_pattern (signature_of func)) in
  let c := migration_class (resolve func) in
  (v = Verdict.SUPPORTED <-> c = Status.supported)
  /\ (v = Verdict.PARTIAL -> c = Status.partial)
  /\ (is_Some (resolve func) -> c = Status.partial -> v = Verdict.PARTIAL).
Proof.
  cbv zeta. unfold classify_pattern, migration_class, resolve.
  destruct (SELECTOR_DB !! selector_of (signature_of func)) as [f|].
  - cbn [status]. destruct (matchType (injectiveMapping f));
      repeat split; intros; try discriminate; try reflexivity.
  - repeat split; intros; repeat case_match; try discriminate;
      try (destruct H as [? [=]]).
Qed.

Lemma scorer_counts_against_estimator (functions : list AbiItem) :
  let results := map classify_pattern (map signature_of functions) in
  count_status Verdict.SUPPORTED results = count_class Status.supported functions
  /\ (count_status Verdict.PARTIAL results <= count_class Status.partial functions)%nat
  /\ (Forall (fun func => is_Some (resolve func)) functions ->
      count_status Verdict.PARTIAL results = count_class Status.partial functions).
Proof.
  cbv zeta. induction functions as [|func functions (IHs & IHp & IHr)].
  - repeat split; reflexivity || lia.
  - cbn [map]. rewrite !count_status_cons, !count_class_cons.
    destruct (verdict_and_class func) as (Hs & Hp & Hr). cbv zeta in Hs, Hp, Hr.
    repeat split.
    + rewrite IHs. repeat case_decide; try reflexivity; exfalso; tauto.
    + repeat case_decide; try lia; exfalso; tauto.
    + intros Hall. apply Forall_cons in Hall as [Hres Hall]. rewrite (IHr Hall).
      repeat case_decide; try reflexivity; exfalso; tauto.
Qed.

(** The estimator's partial tally against the scorer's: every PARTIAL
    verdict is a partial function, and the other partial functions are
    those without a registry entry. *)
Lemma partial_counts_against_scorer (functions : list AbiItem) :
  count_class Status.partial functions
  = (count_status Verdict.PARTIAL (map classify_pattern (map signature_of functions))
     + length (unregistered functions))%nat.
Proof.
  induction functions as [|func functions IH]; [reflexivity |].
  cbn [map]. rewrite count_status_cons, count_class_cons, IH.
  unfold unregistered. cbn [List.filter]. fold (unregistered functions).
  unfold classify_pattern. fold (resolve func).
  destruct (resolve func) as [f|].
  - cbn [status migration_class length].
    destruct (matchType (injectiveMapping f)); repeat case_decide;
      try discriminate; try congruence; lia.
  - cbn [migration_class length].
    repeat case_match; cbn [status] in *; try discriminate; try congruence; lia.
Qed.

Lemma unregistered_nil (functions : list AbiItem) :
  (forall func, In func functions -> is_Some (resolve func)) ->
  unregistered functions = [].
Proof.
  induction functions as [|func functions IH]; intros Hall; [reflexivity |].
  unfold unregistered. cbn [List.filter]. fold (unregistered functions).
  destruct (Hall func (or_introl eq_refl)) as [f ->].
  apply IH. intros func' Hin. apply Hall. right. exact Hin.
Qed.

(** X24: On the same ABI the estimator's feature parity is never below the
    scorer's score, and the two are equal when every function of the ABI
    has a registry entry: the feature parity is the score the scorer would
    give if it counted each function without a registry entry as PARTIAL. *)
Theorem parity_at_least_score (abi : list AbiItem) (score parity : Z) :
  report_score (compatibility_route {| patterns := None; contractAbi := Some abi |})
  = Some score ->
  report_parity (estimate_route (Some abi)) = Some parity ->
  let functions := List.filter is_function abi in
  let results := map classify_pattern (map signature_of functions) in
  (score <= parity)%Z
  /\ ((forall func, In func abi -> is_function func = true -> is_Some (resolve func)) ->
      score = parity)
  /\ score = percent_score (count_status Verdict.SUPPORTED results)
               (count_status Verdict.PARTIAL results) (length functions)
  /\ parity = percent_score (count_status Verdict.SUPPORTED results)
                (count_status Verdict.PARTIAL results + length (unregistered functions))
                (length functions).
Proof.
  set (req := {| patterns := None; contractAbi := Some abi |}).
  intros Hscore Hparity functions results.
  assert (Hall : all_patterns req = map signature_of functions) by reflexivity.
  assert (Hfun : functions <> []).
  { intros Hnil. unfold compatibility_route in Hscore. fold (all_patterns req) in Hscore.
    rewrite Hall, Hnil in Hscore. discriminate. }
  assert (Hne : abi <> []) by (intros ->; contradiction).
  rewrite compatibility_route_report in Hscore
    by (rewrite Hall; destruct functions; [contradiction | discriminate]).
  rewrite (estimate_route_report abi Hne) in Hparity.
  cbv zeta in Hscore, Hparity. fold functions in Hparity. rewrite Hall in Hscore.
  fold results in Hscore.
  cbn [report_score report_parity] in Hscore, Hparity.
  injection Hscore as <-. injection Hparity as <-.
  assert (Hresults : length results = length functions)
    by (subst results; now rewrite !length_map).
  rewrite Hresults.
  assert (Hlen : (0 < length functions)%nat) by (destruct functions; [contradiction | cbn; lia]).
  replace (match length functions with O => 1%nat | S n0 => S n0 end)
    with (length functions) by (destruct (length functions); [lia | reflexivity]).
  destruct (estimate_counts functions) as (-> & -> & _).
  destruct (scorer_counts_against_estimator functions) as (Hs & _ & _).
  fold results in Hs. rewrite <- Hs, (partial_counts_against_scorer functions).
  fold results.
  repeat split.
  - apply percent_score_monotone; [exact Hlen | lia].
  - intros Hres. rewrite (unregistered_nil functions), Nat.add_0_r; [reflexivity |].
    intros func Hin. subst functions. apply filter_In in Hin as [Hin Hf]. auto.
Qed.

Lemma parity_at_least_score_witness :
  (75 <= 75)%Z
  /\ ((forall func, In func token_abi -> is_function func = true ->
         is_Some (resolve func)) -> 75%Z = 75%Z)
  /\ 75%Z
     = percent_score
         (count_status Verdict.SUPPORTED
            (map classify_pattern (map signature_of (List.filter is_function token_abi))))
         (count_status Verdict.PARTIAL
            (map classify_pattern (map signature_of (List.filter is_function token_abi))))
         (length (List.filter is_function token_abi))
  /\ 75%Z
     = percent_score
         (count_status Verdict.SUPPORTED
            (map classify_pattern (map signature_of (List.filter is_function token_abi))))
         (count_status Verdict.PARTIAL
            (map classify_pattern (map signature_of (List.filter is_function token_abi)))
          + length (unregistered (List.filter is_function token_abi)))
         (length (List.filter is_function token_abi)).
Proof. apply (parity_at_least_score token_abi 75 75); vm_compute; reflexivity. Defined.

(** Where a function has no registry entry the two differ:
    [mint(address,uint256)] alone scores 0 and has feature parity 50. *)
Example parity_above_score_on_unregistered :
  report_score (compatibility_route {| patterns := None; contractAbi := Some [mint_function] |})
  = Some 0%Z
  /\ report_parity (estimate_route (Some [mint_function])) = Some 50%Z.
Proof. split; vm_compute; reflexivity. Qed.

(** ** The calldata path, end to end *)

Lemma named_params_defined (names types values : list string) (i : nat) :
  (i + length names <= length values)%nat ->
  is_Some (named_params names i types values).
Proof.
  revert i. induction names as [|n names IH]; intros i Hle; cbn in *; [eauto |].
  destruct (lookup_lt_is_Some_2 values i) as [v Hv]; [lia |]. rewrite Hv.
  destruct (IH (S i)) as [ps Hps]; [lia |]. rewrite Hps. cbn. eauto.
Qed.

(** X25: Calldata for a registered, supported function whose parameter bytes the
    ABI decoder accepts (returning at least one value per parameter) is
    answered with a translation carrying the entry's metadata. *)
Theorem calldata_translates (abi : AbiDecoder) (now : Z) (cd : string)
    (ctx : option Context) (f : FuncInfo) (values : list string) :
  well_formed (Some cd) = true ->
  SELECTOR_DB !! JS.toLowerCase (JS.slice cd 0 10) = Some f ->
  matchType (injectiveMapping f) <> UNSUPPORTED ->
  abi (paramTypes f) ("0x" ++ JS.slice_from cd 10) = inr values ->
  (length (paramNames f) <= length values)%nat ->
  exists messages explanation,
    translate_route abi now {| input := Some (Calldata (Some cd)); context := ctx |}
    = TranslationResponse messages explanation (metadata_of f) gas_estimate.
Proof.
  intros Hwf Hlookup Hs Habi Hlen.
  destruct (named_params_defined (paramNames f) (paramTypes f) values 0) as [ps Hps];
    [cbn; lia |].
  assert (Hdec : exists ps', decodeCalldata abi (Some cd)
            = JS.Return (decoded_call (JS.toLowerCase (JS.slice cd 0 10)) f ps')).
  { unfold decodeCalldata. unfold well_formed in Hwf.
    rewrite Nat.ltb_antisym, <- negb_andb, Hwf. cbn [negb]. rewrite Hlookup.
    destruct ((0 <? length (paramTypes f))%nat && _); [| eexists; reflexivity].
    rewrite Habi, Hps. eexists; reflexivity. }
  destruct Hdec as [ps' Hdec].
  unfold translate_route, decode_input. cbn [input context]. rewrite Hdec.
  cbn [decoded decoded_call negb].
  destruct (translate_registered now (decoded_call (JS.toLowerCase (JS.slice cd 0 10)) f ps')
              (default empty_context ctx) f Hlookup Hs) as (ms & e & _ & ->).
  eexists _, _. reflexivity.
Qed.

Lemma calldata_translates_witness :
  exists messages explanation,
    translate_route ReferenceAbi.decode 0
      {| input := Some (Calldata (Some stake_calldata)); context := None |}
    = TranslationResponse messages explanation (metadata_of stake_info) gas_estimate.
Proof.
  apply (calldata_translates ReferenceAbi.decode 0 stake_calldata None stake_info
           ["5000000000"]);
    first [vm_compute; reflexivity | discriminate | cbn; lia].
Defined.

(** X26: [translate] reads a decoded call through its selector and the names and
    values of its parameters only: a calldata call and an intent with the
    same named values translate alike, whatever the types recorded. *)
Theorem translate_reads_names_and_values (now : Z) (d d' : DecodedCall) (ctx : Context) :
  selector d = selector d' ->
  map (fun p => (p_name p, p_value p)) (default [] (parameters d))
  = map (fun p => (p_name p, p_value p)) (default [] (parameters d')) ->
  translate now d ctx = translate now d' ctx.
Proof.
  intros Hsel Hparams.
  assert (Hcollect : collect_params d = collect_params d').
  { unfold collect_params.
    assert (Hfold : forall ps (m : gmap string string),
              foldl (fun params p => <[p_name p := p_value p]> params) m ps
              = foldl (fun params nv => <[nv.1 := nv.2]> params) m
                  (map (fun p => (p_name p, p_value p)) ps)).
    { induction ps as [|p ps IH]; intros m; [reflexivity | apply IH]. }
    now rewrite !Hfold, Hparams. }
  unfold translate. now rewrite Hsel, Hcollect.
Qed.

Lemma translate_reads_names_and_values_witness :
  translate 0 stake_call empty_context
  = translate 0 (intent_call "0xa694fc3a" stake_info (Some [("amount", "5000000000")]))
      empty_context.
Proof.
  apply (translate_reads_names_and_values 0 stake_call
           (intent_call "0xa694fc3a" stake_info (Some [("amount", "5000000000")]))
           empty_context); reflexivity.
Defined.

(** ** Subaccount identifiers *)

Lemma length_repeat (c : string) (n : nat) :
  String.length (JS.repeat c n) = (n * String.length c)%nat.
Proof.
  induction n as [|n IH]; [reflexivity |].
  cbn [JS.repeat]. rewrite length_append, IH. cbn [Nat.mul]. lia.
Qed.

Lemma length_padStart (s c : string) (n : nat) :
  String.length c = 1%nat ->
  String.length (JS.padStart s n c) = Nat.max n (String.length s).
Proof.
  intros Hc. unfold JS.padStart. rewrite length_append, length_repeat, Hc. lia.
Qed.

Lemma replace_inj_prefix (rest : string) : JS.replace ("inj" ++ rest) "inj" "" = rest.
Proof.
  unfold JS.replace.
  assert (Hindex : String.index 0 "inj" ("inj" ++ rest) = Some 0%nat).
  { destruct rest; reflexivity. }
  rewrite Hindex. unfold JS.slice_from.
  change ("inj" ++ rest) with (String "i" (String "n" (String "j" rest))).
  cbn [String.substring String.length Nat.sub Nat.add].
  rewrite Nat.sub_0_r, substring_whole. reflexivity.
Qed.

(** X27: For an address that starts with "inj" the subaccount id is "0x", the
    rest of the address left-padded with zeros to 40 characters, and 24
    zeros; it has 66 characters when the address has at most 43, and is
    longer otherwise (the address is never truncated). *)
Theorem getSubaccountId_shape (rest : string) :
  getSubaccountId ("inj" ++ rest)
  = "0x" ++ JS.padStart rest 40 "0" ++ "000000000000000000000000"
  /\ String.length (getSubaccountId ("inj" ++ rest))
     = (26 + Nat.max 40 (String.length rest))%nat.
Proof.
  assert (H : getSubaccountId ("inj" ++ rest)
              = "0x" ++ JS.padStart rest 40 "0" ++ "000000000000000000000000").
  { unfold getSubaccountId. rewrite replace_inj_prefix. reflexivity. }
  split; [exact H |].
  rewrite H, !length_append, length_padStart by reflexivity. cbn [String.length]. lia.
Qed.

(** ** Derived selectors *)

Lemma keccak_round_length (s : list N) (rc : N) : length (Keccak.round s rc) = 25%nat.
Proof.
  unfold Keccak.round, Keccak.iota.
  assert (H : length (Keccak.chi (Keccak.rho_pi (Keccak.theta s))) = 25%nat).
  { unfold Keccak.chi. rewrite length_map. reflexivity. }
  destruct (Keccak.chi _) as [|a rest]; [discriminate | exact H].
Qed.

Lemma keccak_f_length (s : list N) : length s = 25%nat -> length (Keccak.keccak_f s) = 25%nat.
Proof.
  unfold Keccak.keccak_f. generalize Keccak.round_constants. intros rcs. revert s.
  induction rcs as [|rc rcs IH]; intros s Hs; [exact Hs |].
  cbn [fold_left]. apply IH, keccak_round_length.
Qed.

Lemma keccak_absorb_length (blocks : nat) (s bytes : list N) :
  length s = 25%nat -> length (Keccak.absorb blocks s bytes) = 25%nat.
Proof.
  revert s bytes. induction blocks as [|k IH]; intros s bytes Hs; [exact Hs |].
  cbn [Keccak.absorb]. apply IH, keccak_f_length.
  unfold Keccak.xor_block. rewrite length_map, length_combine, Hs.
  assert (Hlanes : forall n bs, length (Keccak.lanes_of n bs) = n).
  { induction n as [|n IHn]; intros bs; [reflexivity |]. cbn. now rewrite IHn. }
  rewrite Hlanes. reflexivity.
Qed.

Lemma bytes_of_lane_spec (n : nat) (a : N) :
  length (Keccak.bytes_of_lane n a) = n
  /\ Forall (fun b => (b < 256)%N) (Keccak.bytes_of_lane n a).
Proof.
  revert a. induction n as [|n IH]; intros a; [split; [reflexivity | constructor] |].
  cbn [Keccak.bytes_of_lane]. destruct (IH (a / 256)%N) as [Hlen Hall]. split.
  - cbn. now rewrite Hlen.
  - constructor; [apply N.mod_lt; discriminate | exact Hall].
Qed.

Lemma flat_map_lanes (s : list N) :
  length (flat_map (Keccak.bytes_of_lane 8) s) = (8 * length s)%nat
  /\ Forall (fun b => (b < 256)%N) (flat_map (Keccak.bytes_of_lane 8) s).
Proof.
  induction s as [|a s [IHlen IHall]]; [split; [reflexivity | constructor] |].
  cbn [flat_map]. destruct (bytes_of_lane_spec 8 a) as [Hlen Hall]. split.
  - rewrite length_app, Hlen, IHlen. cbn [length]. lia.
  - apply Forall_app. auto.
Qed.

(** A digest has 32 bytes, each below 256. *)
Lemma keccak256_spec (msg : list N) :
  length (Keccak.keccak256 msg) = 32%nat
  /\ Forall (fun b => (b < 256)%N) (Keccak.keccak256 msg).
Proof.
  unfold Keccak.keccak256, Keccak.sponge256. cbv zeta.
  set (s := Keccak.absorb _ _ _).
  assert (Hs : length s = 25%nat) by (apply keccak_absorb_length; reflexivity).
  destruct (flat_map_lanes s) as [Hlen Hall]. split.
  - rewrite length_take, Hlen, Hs. reflexivity.
  - now apply Forall_take.
Qed.

Lemma hex_digit_lower (d : N) :
  (d < 16)%N -> JS.lower_char (Keccak.hex_digit d) = Keccak.hex_digit d.
Proof.
  intros Hd.
  assert (H : In d [0; 1; 2; 3; 4; 5; 6; 7; 8; 9; 10; 11; 12; 13; 14; 15]%N).
  { cbn. lia. }
  cbn in H. repeat (destruct H as [<- | H]; [reflexivity |]). contradiction.
Qed.

Lemma hex_digit_lower_hex (d : N) :
  (d < 16)%N -> lower_hex_digit (Keccak.hex_digit d) = true.
Proof.
  intros Hd.
  assert (H : In d [0; 1; 2; 3; 4; 5; 6; 7; 8; 9; 10; 11; 12; 13; 14; 15]%N).
  { cbn. lia. }
  cbn in H. repeat (destruct H as [<- | H]; [reflexivity |]). contradiction.
Qed.

(** X28: The selector derived from any text is "0x" followed by eight lowercase
    hexadecimal digits: it has the form of a registry key. *)
Theorem selector_of_shape (text : string) :
  String.length (selector_of text) = 10%nat
  /\ JS.startsWith (selector_of text) "0x" = true
  /\ JS.toLowerCase (selector_of text) = selector_of text
  /\ exists digits : list ascii,
       selector_of text = "0x" ++ string_of_list_ascii digits
       /\ length digits = 8%nat
       /\ forallb lower_hex_digit digits = true.
Proof.
  unfold selector_of, ethers_id.
  destruct (keccak256_spec (Keccak.utf8_bytes text)) as [Hlen Hall].
  destruct (Keccak.keccak256 (Keccak.utf8_bytes text))
    as [|b0 [|b1 [|b2 [|b3 rest]]]]; try discriminate.
  apply Forall_cons in Hall as [H0 Hall]. apply Forall_cons in Hall as [H1 Hall].
  apply Forall_cons in Hall as [H2 Hall]. apply Forall_cons in Hall as [H3 _].
  cbn [Keccak.hex_of_bytes fold_right].
  change ("0x" ++ ?s) with (String "0" (String "x" s)).
  unfold JS.slice. cbn [Nat.sub String.substring String.length JS.toLowerCase].
  rewrite substring_none.
  assert (Hhigh : forall b, (b < 256)%N -> (b / 16 < 16)%N)
    by (intros b Hb; apply N.Div0.div_lt_upper_bound; lia).
  assert (Hlow : forall b, (b mod 16 < 16)%N) by (intros b; apply N.mod_lt; discriminate).
  repeat split.
  - rewrite !hex_digit_lower; auto.
  - eexists [_; _; _; _; _; _; _; _]. split; [reflexivity |]. split; [reflexivity |].
    cbn [forallb]. rewrite !hex_digit_lower_hex; auto.
Qed.

(** ** Intents *)

Lemma filter_name_unique (n : string) (ps : list Param) :
  NoDup (map p_name ps) ->
  (length (filter (fun p => p_name p = n) ps) <= 1)%nat.
Proof.
  induction ps as [|p ps IH]; intros Hnd; [cbn; lia |].
  cbn [map] in Hnd. apply NoDup_cons in Hnd as [Hnotin Hnd].
  rewrite filter_cons. destruct (decide (p_name p = n)) as [Heq | Hne]; [| auto].
  cbn [length]. destruct (filter _ ps) as [|q qs] eqn:Hf; [cbn; lia |].
  exfalso. apply Hnotin.
  assert (Hq : q ∈ filter (fun p => p_name p = n) ps) by (rewrite Hf; left).
  apply list_elem_of_filter in Hq as [Hqn Hq].
  rewrite Heq, <- Hqn. now apply list_elem_of_fmap_2.
Qed.

Lemma collect_params_permutation (ps ps' : list Param) (m : gmap string string) :
  ps ≡ₚ ps' ->
  NoDup (map p_name ps) ->
  foldl (fun params p => <[p_name p := p_value p]> params) m ps
  = foldl (fun params p => <[p_name p := p_value p]> params) m ps'.
Proof.
  intros Hperm Hnd. apply map_eq. intros n. rewrite !foldl_params_lookup.
  assert (Hnd' : NoDup (map p_name ps')) by (now rewrite <- Hperm).
  pose proof (filter_name_unique n ps Hnd) as Hlen.
  pose proof (filter_name_unique n ps' Hnd') as Hlen'.
  assert (Hf : filter (fun p => p_name p = n) ps ≡ₚ filter (fun p => p_name p = n) ps')
    by (now rewrite Hperm).
  destruct (filter _ ps) as [|q [|q' qs]]; cbn in Hlen; try lia.
  - apply Permutation_nil_l in Hf. now rewrite Hf.
  - apply Permutation_singleton_l in Hf. now rewrite Hf.
Qed.

(** X29: The order of the entries of an intent's parameter bag does not matter:
    two bags with the same entries (under distinct names, as in a JSON
    object) get the same response. *)
Theorem intent_parameter_order (abi : AbiDecoder) (now : Z) (action : option string)
    (params params' : list (string * string)) (ctx : option Context) :
  params ≡ₚ params' ->
  NoDup (map fst params) ->
  translate_route abi now {| input := Some (Intent action (Some params)); context := ctx |}
  = translate_route abi now {| input := Some (Intent action (Some params')); context := ctx |}.
Proof.
  intros Hperm Hnd. unfold translate_route, decode_input. cbn [input context].
  destruct (intentMap !! _) as [sel|]; [| reflexivity].
  destruct (SELECTOR_DB !! sel) as [f|] eqn:Hlookup; [| reflexivity].
  assert (Heq : translate now (intent_call sel f (Some params)) (default empty_context ctx)
                = translate now (intent_call sel f (Some params')) (default empty_context ctx)).
  { unfold translate. cbn [selector intent_call].
    assert (Hcollect : collect_params (intent_call sel f (Some params))
                       = collect_params (intent_call sel f (Some params'))).
    { unfold collect_params. cbn [parameters intent_call default from_option id].
      apply collect_params_permutation.
      - now apply fmap_Permutation.
      - rewrite map_map. erewrite map_ext; [exact Hnd |]. now intros [n v]. }
    now rewrite Hcollect. }
  now rewrite Heq.
Qed.

Lemma intent_parameter_order_witness :
  translate_route ReferenceAbi.decode 0
    {| input := Some (Intent (Some "transfer") (Some [("to", "inj1to"); ("amount", "7")]));
       context := None |}
  = translate_route ReferenceAbi.decode 0
      {| input := Some (Intent (Some "transfer") (Some [("amount", "7"); ("to", "inj1to")]));
         context := None |}.
Proof.
  apply (intent_parameter_order ReferenceAbi.decode 0 (Some "transfer")
           [("to", "inj1to"); ("amount", "7")] [("amount", "7"); ("to", "inj1to")] None).
  - apply Permutation_swap.
  - cbn. apply NoDup_cons_2; [| apply NoDup_singleton].
    intros Hin%list_elem_of_In. cbn in Hin. intuition discriminate.
Defined.

(** The estimate of a two-function interface with one DIRECT and one
    UNSUPPORTED function: complexity (1 + 4) / 2 = 2.5, band COMPLEX, one
    blocker. *)
Example estimate_direct_and_unsupported :
  exists tally,
    estimate_route (Some [abi_item_of stake_info; abi_item_of flashLoan_info])
    = EstimateReport COMPLEX 50 2 tally ["Unsupported patterns"]
    /\ complexity tally 2 == 2.5.
Proof.
  eexists. split.
  - vm_compute. reflexivity.
  - vm_compute. reflexivity.
Qed.
